(** * Workflow linter ([lint-workflow/lint.py]): a shallow embedding

    The linter walks a deserialised workflow document, appends findings to
    a list, queries the GitHub API for every remote [uses] reference and
    reduces the findings to a maximal problem level.

    Modelling conventions.
    - Python [str] is [string]; the model is exact on ASCII text.
    - A Python exception is a value of [exn]; a computation that can raise
      returns a [result].
    - The network is an oracle [api] from request URL to HTTP response;
      every request is recorded, in order, in a trace of URLs.
    - [lint] mutates [findings] by [append]; the model threads the list
      (and the request trace) through a small state-and-exception monad in
      which the state survives a raise, as side effects do in Python. *)

From Stdlib Require Import String Ascii List ZArith Lia Bool Arith.
From Stdlib Require Import DecimalString Sorted OrderedTypeEx.
Import ListNotations.
Open Scope string_scope.

(** ** Python exceptions and results *)

Inductive exn : Type :=
| ValueError   (* also [json.JSONDecodeError], one of its subclasses *)
| IndexError
| KeyError
| TypeError.

Inductive result (A : Type) : Type :=
| Ok (a : A)
| Raise (e : exn).
Arguments Ok {A} a.
Arguments Raise {A} e.

(** ** Python string primitives *)

Module Py.

(** [sub in s] for two strings. *)
Fixpoint contains (sub s : string) : bool :=
  String.prefix sub s
  || match s with
     | EmptyString => false
     | String _ s' => contains sub s'
     end.

(** [s.split(sep)] for a one-character separator, as head and tail: the
    list Python returns is never empty. *)
Fixpoint split_ne (sep : ascii) (s : string) : string * list string :=
  match s with
  | EmptyString => (EmptyString, [])
  | String c s' =>
      let (h, t) := split_ne sep s' in
      if Ascii.eqb c sep then (EmptyString, h :: t) else (String c h, t)
  end.

Definition split (sep : ascii) (s : string) : list string :=
  let (h, t) := split_ne sep s in h :: t.

(** [s.split(sep, maxsplit)]: at most [maxsplit] cuts, from the left. *)
Fixpoint split_max (sep : ascii) (maxsplit : nat) (s : string) {struct s}
  : list string :=
  match maxsplit with
  | O => [s]
  | S m =>
      match s with
      | EmptyString => [EmptyString]
      | String c s' =>
          if Ascii.eqb c sep then EmptyString :: split_max sep m s'
          else match split_max sep maxsplit s' with
               | [] => [String c EmptyString]
               | h :: t => String c h :: t
               end
      end
  end.

(** [sep.join(l)]. *)
Fixpoint join (sep : string) (l : list string) : string :=
  match l with
  | [] => EmptyString
  | [x] => x
  | x :: r => x ++ sep ++ join sep r
  end.

(** [s.count(c)] for a one-character [c]. *)
Fixpoint count (c : ascii) (s : string) : nat :=
  match s with
  | EmptyString => 0
  | String d s' => (if Ascii.eqb d c then 1 else 0) + count c s'
  end.

(** [s[0]]: the first character, [IndexError] on the empty string. *)
Definition first (s : string) : result ascii :=
  match s with
  | EmptyString => Raise IndexError
  | String c _ => Ok c
  end.

(** [c.isupper()] for one ASCII character. *)
Definition isupper (c : ascii) : bool :=
  let n := nat_of_ascii c in ((65 <=? n) && (n <=? 90))%nat.

(** [l[n]] on a list. *)
Definition item {A : Type} (l : list A) (n : nat) : result A :=
  match nth_error l n with
  | Some x => Ok x
  | None => Raise IndexError
  end.

(** [str(i)] for a non-negative integer. *)
Definition str_of_nat (i : nat) : string :=
  NilEmpty.string_of_uint (Nat.to_uint i).

(** *** [int(s, 16)]

    CPython's [PyLong_FromString] with base 16: blanks around the
    literal, one optional sign, an optional [0x] prefix, then hexadecimal
    digits of either case in which single underscores may separate
    digits.  Only success or [ValueError] matters to the linter. *)

Definition isspace (c : ascii) : bool :=
  let n := nat_of_ascii c in (((9 <=? n) && (n <=? 13)) || (n =? 32))%nat.

Definition ishex (c : ascii) : bool :=
  let n := nat_of_ascii c in
  (((48 <=? n) && (n <=? 57))
   || ((97 <=? n) && (n <=? 102))
   || ((65 <=? n) && (n <=? 70)))%nat.

Fixpoint skip_spaces (s : string) : string :=
  match s with
  | String c s' => if isspace c then skip_spaces s' else s
  | EmptyString => EmptyString
  end.

Definition skip_sign (s : string) : string :=
  match s with
  | String c s' =>
      if Ascii.eqb c "+" || Ascii.eqb c "-" then s' else s
  | EmptyString => EmptyString
  end.

Definition skip_prefix16 (s : string) : string :=
  match s with
  | String "0" (String x s') =>
      if Ascii.eqb x "x" || Ascii.eqb x "X" then
        match s' with
        | String "_" s'' => s''
        | _ => s'
        end
      else s
  | _ => s
  end.

(** The digit loop: the rest of the text after the digits, [None] on a
    doubled or trailing underscore. *)
Fixpoint scan_digits (prev_underscore : bool) (s : string) : option string :=
  match s with
  | String c s' =>
      if ishex c then scan_digits false s'
      else if Ascii.eqb c "_" then
             if prev_underscore then None else scan_digits true s'
           else if prev_underscore then None else Some s
  | EmptyString => if prev_underscore then None else Some EmptyString
  end.

Definition int16 (s : string) : result unit :=
  let start := skip_prefix16 (skip_sign (skip_spaces s)) in
  match start with
  | String "_" _ => Raise ValueError
  | _ =>
      match scan_digits false start with
      | None => Raise ValueError
      | Some rest =>
          if String.eqb rest start then Raise ValueError
          else match skip_spaces rest with
               | EmptyString => Ok tt
               | _ => Raise ValueError
               end
      end
  end.

(** [c.isspace()] for one ASCII character, the blanks of [s.split()]. *)
Definition isspace_str (c : ascii) : bool :=
  let n := nat_of_ascii c in
  (((9 <=? n) && (n <=? 13)) || ((28 <=? n) && (n <=? 32)))%nat.

(** [s.split()]: the maximal runs of characters that are not blanks. *)
Fixpoint words (s : string) : list string :=
  match s with
  | EmptyString => []
  | String c s' =>
      if isspace_str c then words s'
      else match s' with
           | EmptyString => [String c EmptyString]
           | String d _ =>
               if isspace_str d then String c EmptyString :: words s'
               else match words s' with
                    | [] => [String c EmptyString]
                    | h :: t => String c h :: t
                    end
           end
  end.

(** [s.endswith(suffix)]. *)
Fixpoint endswith (suffix s : string) : bool :=
  String.eqb suffix s
  || match s with
     | EmptyString => false
     | String _ s' => endswith suffix s'
     end.

(** [sorted(set(l))] for texts: the strictly increasing list of the items
    of [l], in the order of code points. *)
Fixpoint insert_sorted (x : string) (l : list string) : list string :=
  match l with
  | [] => [x]
  | y :: r =>
      match String.compare x y with
      | Lt => x :: l
      | Eq => l
      | Gt => y :: insert_sorted x r
      end
  end.

Definition sorted_set (l : list string) : list string :=
  fold_right insert_sorted [] l.

End Py.

(** ** JSON values, as [json.loads] returns them

    Objects are Python dicts (keys are distinct), arrays are lists.  Numbers
    are restricted to integers: the fields the linter reads are texts. *)

#[warnings="-register-all"] Inductive json : Type :=
| JNull
| JBool (b : bool)
| JNum (z : Z)
| JStr (s : string)
| JArr (l : list json)
| JObj (m : list (string * json)).

Module Json.

Fixpoint lookup (k : string) (m : list (string * json)) : option json :=
  match m with
  | [] => None
  | (k', v) :: m' => if String.eqb k k' then Some v else lookup k m'
  end.

(** [j[key]] for a text key. *)
Definition getitem (j : json) (key : string) : result json :=
  match j with
  | JObj m =>
      match lookup key m with
      | Some v => Ok v
      | None => Raise KeyError
      end
  | _ => Raise TypeError
  end.

(** [j[n]] for an integer index. *)
Definition getindex (j : json) (n : nat) : result json :=
  match j with
  | JArr l => Py.item l n
  | JStr s =>
      match String.get n s with
      | Some c => Ok (JStr (String c EmptyString))
      | None => Raise IndexError
      end
  | JObj _ => Raise KeyError
  | _ => Raise TypeError
  end.

(** [j == s] for a text [s]. *)
Definition eq_str (j : json) (s : string) : bool :=
  match j with
  | JStr t => String.eqb t s
  | _ => false
  end.

(** [j in l] for a list of texts [l]. *)
Definition in_strs (j : json) (l : list string) : bool :=
  existsb (eq_str j) l.

(** [repr(s)] of an ASCII text: the quote is the apostrophe unless the text
    has an apostrophe and no double quote. *)
Definition hexdigit (n : nat) : ascii :=
  ascii_of_nat (if (n <? 10)%nat then 48 + n else 87 + n).

Definition quote_of (s : string) : ascii :=
  if Py.contains "'" s && negb (Py.contains (String (ascii_of_nat 34) "") s)
  then ascii_of_nat 34 else "'"%char.

Fixpoint escape (q : ascii) (s : string) : string :=
  match s with
  | EmptyString => EmptyString
  | String c s' =>
      let n := nat_of_ascii c in
      (if Ascii.eqb c q || Ascii.eqb c "\"
       then String "\" (String c EmptyString)
       else if (n =? 9)%nat then "\t"
       else if (n =? 10)%nat then "\n"
       else if (n =? 13)%nat then "\r"
       else if ((n <? 32) || (n =? 127))%nat
            then String "\" (String "x" (String (hexdigit (n / 16))
                                          (String (hexdigit (n mod 16)) "")))
       else String c EmptyString) ++ escape q s'
  end.

Definition repr_str (s : string) : string :=
  let q := quote_of s in String q (escape q s ++ String q EmptyString).

Definition str_of_Z (z : Z) : string :=
  NilEmpty.string_of_int (Z.to_int z).

(** [repr(j)]. *)
Fixpoint repr (j : json) : string :=
  match j with
  | JNull => "None"
  | JBool true => "True"
  | JBool false => "False"
  | JNum z => str_of_Z z
  | JStr s => repr_str s
  | JArr l =>
      "[" ++ Py.join ", " (map repr l) ++ "]"
  | JObj m =>
      "{" ++ Py.join ", " (map (fun kv => repr_str (fst kv) ++ ": " ++ repr (snd kv)) m)
          ++ "}"
  end.

(** [str(j)], what an f-string renders. *)
Definition str (j : json) : string :=
  match j with
  | JStr s => s
  | _ => repr j
  end.

End Json.

(** ** The registry client

    [http.request("GET", url, headers)] is the oracle [api]: the response to
    a URL.  [data] holds what [json.loads(response.data)] returns, [None]
    when the body is not JSON.  A computation of the client returns its
    result together with the URLs it requested, in order. *)

Record Response : Type := mkResponse {
  status : Z;
  reason : string;
  data : option json
}.

Definition Api : Type := string -> Response.

Definition Reg (A : Type) : Type := (result A * list string)%type.

Definition reg_ret {A : Type} (a : A) : Reg A := (Ok a, []).

Definition reg_raise {A : Type} (e : exn) : Reg A := (Raise e, []).

Definition reg_bind {A B : Type} (m : Reg A) (f : A -> Reg B) : Reg B :=
  match m with
  | (Ok a, t) => let (r, t') := f a in (r, (t ++ t')%list)
  | (Raise e, t) => (Raise e, t)
  end.

Definition reg_lift {A : Type} (r : result A) : Reg A := (r, []).

Declare Scope reg_scope.
Delimit Scope reg_scope with reg.
Notation "x <- m ;; k" := (reg_bind m (fun x => k))
  (at level 61, m at next level, right associativity) : reg_scope.

(** [json.loads(r.data)]. *)
Definition json_loads (r : Response) : result json :=
  match data r with
  | Some j => Ok j
  | None => Raise ValueError
  end.

(** lint.py, lines 59-81.  The logging calls leave no trace in the model. *)
Definition get_github_api_response (api : Api) (url action_id : string)
  : Reg (option Response) :=
  let response := api url in
  if (status response =? 403)%Z && String.eqb (reason response) "rate limit exceeded"
  then (Ok None, [url])
  else if (status response =? 401)%Z && String.eqb (reason response) "Unauthorized"
  then (Ok None, [url])
  else (Ok (Some response), [url]).

(** lint.py, lines 84-113. *)
Definition action_repo_exists (api : Api) (action_id : string) : Reg bool :=
  if Py.contains "./" action_id then reg_ret true
  else
    let (path, hash) := Py.split_ne "@" action_id in
    (r <- (if Py.contains "bitwarden" path then
             let path_list := Py.split_max "/" 2 path in
             p0 <- reg_lift (Py.item path_list 0) ;;
             p1 <- reg_lift (Py.item path_list 1) ;;
             get_github_api_response api
               ("https://api.github.com/repos/" ++ p0 ++ "/" ++ p1) action_id
           else
             get_github_api_response api
               ("https://api.github.com/repos/" ++ path) action_id) ;;
     match r with
     | None => reg_ret true
     | Some r => if (status r =? 404)%Z then reg_ret false else reg_ret true
     end)%reg.

(** The request target must be a text; any other value makes the HTTP
    library raise, here [TypeError]. *)
Definition url_of (j : json) : result string :=
  match j with
  | JStr s => Ok s
  | _ => Raise TypeError
  end.

(** lint.py, lines 135-186.  Falling off the end of the function returns
    [None]. *)
Definition get_action_update (api : Api) (action_id : string)
  : Reg (option string) :=
  if Py.contains "./" action_id then reg_ret None
  else
    let (path, hash) := Py.split_ne "@" action_id in
    (if Py.contains "bitwarden" path then
       let path_list := Py.split_max "/" 2 path in
       p0 <- reg_lift (Py.item path_list 0) ;;
       p1 <- reg_lift (Py.item path_list 1) ;;
       p2 <- reg_lift (Py.item path_list 2) ;;
       r <- get_github_api_response api
              ("https://api.github.com/repos/" ++ p0 ++ "/" ++ p1
                 ++ "/commits?path=" ++ p2) action_id ;;
       match r with
       | None => reg_ret None
       | Some r =>
           j <- reg_lift (json_loads r) ;;
           e <- reg_lift (Json.getindex j 0) ;;
           sha <- reg_lift (Json.getitem e "sha") ;;
           if negb (Json.in_strs sha hash)
           then reg_ret (Some ("https://github.com/" ++ p0 ++ "/" ++ p1
                                 ++ "/commit/" ++ Json.str sha))
           else reg_ret None
       end
     else
       r <- get_github_api_response api
              ("https://api.github.com/repos/" ++ path ++ "/releases/latest")
              action_id ;;
       match r with
       | None => reg_ret None
       | Some r =>
           j <- reg_lift (json_loads r) ;;
           tag_name <- reg_lift (Json.getitem j "tag_name") ;;
           r <- get_github_api_response api
                  ("https://api.github.com/repos/" ++ path ++ "/git/ref/tags/"
                     ++ Json.str tag_name) action_id ;;
           match r with
           | None => reg_ret None
           | Some r =>
               j <- reg_lift (json_loads r) ;;
               obj <- reg_lift (Json.getitem j "object") ;;
               ty <- reg_lift (Json.getitem obj "type") ;;
               found <- (if Json.eq_str ty "commit" then
                           sha <- reg_lift (Json.getitem obj "sha") ;;
                           reg_ret (Some sha)
                         else
                           u <- reg_lift (Json.getitem obj "url") ;;
                           url <- reg_lift (url_of u) ;;
                           r <- get_github_api_response api url action_id ;;
                           match r with
                           | None => reg_ret None
                           | Some r =>
                               j <- reg_lift (json_loads r) ;;
                               obj <- reg_lift (Json.getitem j "object") ;;
                               sha <- reg_lift (Json.getitem obj "sha") ;;
                               reg_ret (Some sha)
                           end) ;;
               match found with
               | None => reg_ret None
               | Some sha =>
                   if negb (Json.in_strs sha hash)
                   then reg_ret (Some ("https://github.com/" ++ path
                                         ++ "/commit/" ++ Json.str sha))
                   else reg_ret None
               end
           end
       end)%reg.

(** ** Findings and the severity aggregator *)

Inductive Level : Type := warning | error.

(** lint.py, lines 9-12. *)
Definition PROBLEM_LEVELS (l : Level) : Z :=
  match l with
  | warning => 1
  | error => 2
  end.

(** lint.py, lines 28-33. *)
Record LintFinding : Type := mkFinding {
  description : string;
  level : Level
}.

(** [max(x :: l, key=key)]: the first item whose key is the largest. *)
Fixpoint max_by {A : Type} (key : A -> Z) (x : A) (l : list A) : A :=
  match l with
  | [] => x
  | y :: r => max_by key (if (key y >? key x)%Z then y else x) r
  end.

(** lint.py, lines 36-42. *)
Definition get_max_error_level (findings : list LintFinding) : Z :=
  match findings with
  | [] => 0
  | f :: r =>
      let max_problem := max_by (fun finding => PROBLEM_LEVELS (level finding)) f r in
      PROBLEM_LEVELS (level max_problem)
  end.

(** ** The workflow document

    The document as [yaml.load] returns it, with the shape of the fields the
    linter reads: an absent key is [None]; a mapping is the list of its
    items in document order. *)

Record Step : Type := mkStep {
  step_name : option string;
  step_uses : option string;
  step_run : option string
}.

Record Job : Type := mkJob {
  job_name : option string;
  job_runs_on : option string;
  job_env : option (list (string * string));
  job_steps : option (list Step)
}.

Record Workflow : Type := mkWorkflow {
  workflow_name : option string;
  workflow_jobs : option (list (string * Job))
}.

(** ** The rule engine

    A computation of [lint] takes the findings appended and the requests
    sent so far and returns them updated, with its value or the exception
    it raised. *)

Record LintState : Type := mkState {
  findings : list LintFinding;
  requests : list string
}.

Definition Lint (A : Type) : Type := LintState -> result A * LintState.

Definition ret {A : Type} (a : A) : Lint A := fun st => (Ok a, st).

Definition bind {A B : Type} (m : Lint A) (f : A -> Lint B) : Lint B :=
  fun st =>
    match m st with
    | (Ok a, st') => f a st'
    | (Raise e, st') => (Raise e, st')
    end.

Declare Scope lint_scope.
Delimit Scope lint_scope with lint.
Notation "x <- m ;; k" := (bind m (fun x => k))
  (at level 61, m at next level, right associativity) : lint_scope.
Notation "m ;; k" := (bind m (fun _ => k))
  (at level 61, right associativity) : lint_scope.

(** [findings.append(f)]. *)
Definition append (f : LintFinding) : Lint unit :=
  fun st => (Ok tt, mkState (findings st ++ [f])%list (requests st)).

(** A call into the registry client. *)
Definition call {A : Type} (m : Reg A) : Lint A :=
  fun st => (fst m, mkState (findings st) (requests st ++ snd m)%list).

(** A primitive that can raise. *)
Definition eval {A : Type} (r : result A) : Lint A := fun st => (r, st).

(** [try: body  except ValueError: handler]. *)
Definition try_except_ValueError (body handler : Lint unit) : Lint unit :=
  fun st =>
    match body st with
    | (Raise ValueError, st') => handler st'
    | other => other
    end.

(** [try: body  except: handler]. *)
Definition try_except (body handler : Lint unit) : Lint unit :=
  fun st =>
    match body st with
    | (Raise _, st') => handler st'
    | other => other
    end.

Definition when (b : bool) (m : Lint unit) : Lint unit :=
  if b then m else ret tt.

(** [for x in l: body(x)]. *)
Fixpoint for_each {A : Type} (body : A -> Lint unit) (l : list A) : Lint unit :=
  match l with
  | [] => ret tt
  | x :: r => (body x ;; for_each body r)%lint
  end.

(** How the body of the step loop ends: by reaching its end or by [break]. *)
Inductive flow : Type := Next | Break.

(** *** The findings [lint] can append, with the texts of its f-strings *)

Module Finding.

Definition step_of (i : nat) (job_key : string) : string :=
  "Step " ++ Py.str_of_nat i ++ " of job key '" ++ job_key ++ "'".

Definition workflow_name_missing : LintFinding :=
  mkFinding "Name key missing for workflow." warning.

Definition workflow_name_not_capitalized (name : string) : LintFinding :=
  mkFinding ("Name value for workflow is not capitalized. [" ++ name ++ "]") warning.

Definition runner_not_pinned (runner : string) : LintFinding :=
  mkFinding ("Runner version is set to '" ++ runner
               ++ "', but needs to be pinned to a version.") warning.

Definition job_name_missing (job_key : string) : LintFinding :=
  mkFinding ("Name key missing for job key '" ++ job_key ++ "'.") warning.

Definition job_name_not_capitalized (job_key name : string) : LintFinding :=
  mkFinding ("Name value of job key '" ++ job_key ++ "' is not capitalized. ["
               ++ name ++ "]") warning.

Definition env_without_underscore (k job_key : string) : LintFinding :=
  mkFinding ("Environment variable '" ++ k ++ "' of job key '" ++ job_key
               ++ "' does not start with an underscore.") warning.

Definition step_name_missing (i : nat) (job_key : string) : LintFinding :=
  mkFinding ("Name key missing for step " ++ Py.str_of_nat i ++ " of job key '"
               ++ job_key ++ "'.") warning.

Definition step_name_not_capitalized (i : nat) (job_key name : string)
  : LintFinding :=
  mkFinding ("Name value in step " ++ Py.str_of_nat i ++ " of job key '" ++ job_key
               ++ "' is not capitalized. [" ++ name ++ "]") warning.

Definition hash_not_40 (i : nat) (job_key : string) : LintFinding :=
  mkFinding (step_of i job_key
               ++ " does not have a valid action hash. (not 40 characters)") error.

Definition hash_not_hex (i : nat) (job_key : string) : LintFinding :=
  mkFinding (step_of i job_key
               ++ " does not have a valid action hash. (not all hexadecimal characters)")
            error.

Definition hash_missing_at (i : nat) (job_key : string) : LintFinding :=
  mkFinding (step_of i job_key
               ++ " does not have a valid action hash. (missing '@' character)") error.

Definition path_missing_repository (i : nat) (job_key : string) : LintFinding :=
  mkFinding (step_of i job_key
               ++ " does not have a valid action path. (missing name of the repository or workflow)")
            error.

Definition path_missing_author (i : nat) (job_key : string) : LintFinding :=
  mkFinding (step_of i job_key
               ++ " does not have a valid action path. (missing workflow name or the workflow author)")
            error.

Definition action_missing (i : nat) (job_key action_id : string) : LintFinding :=
  mkFinding (step_of i job_key ++ " uses an non-existing action: " ++ action_id ++ ".")
            error.

Definition action_outdated (i : nat) (job_key update_available : string)
  : LintFinding :=
  mkFinding (step_of i job_key ++ " uses an outdated action, consider updating it '"
               ++ update_available ++ "'.") warning.

Definition run_single_line (i : nat) (job_key : string) : LintFinding :=
  mkFinding ("Run in step " ++ Py.str_of_nat i ++ " of job key '" ++ job_key
               ++ "' should be a single line.") warning.

End Finding.

(** *** The rules, in the order of [lint] (lint.py, lines 189-366) *)

(** Lines 197-208. *)
Definition check_workflow_name (workflow : Workflow) : Lint unit :=
  match workflow_name workflow with
  | None => append Finding.workflow_name_missing
  | Some name =>
      (c <- eval (Py.first name) ;;
       when (negb (Py.isupper c))
         (append (Finding.workflow_name_not_capitalized name)))%lint
  end.

(** Lines 216-224. *)
Definition check_runner (job : Job) : Lint unit :=
  let runner := match job_runs_on job with Some r => r | None => EmptyString end in
  when (Py.contains "-latest" runner) (append (Finding.runner_not_pinned runner)).

(** Lines 226-240. *)
Definition check_job_name (job_key : string) (job : Job) : Lint unit :=
  match job_name job with
  | None => append (Finding.job_name_missing job_key)
  | Some name =>
      (c <- eval (Py.first name) ;;
       when (negb (Py.isupper c))
         (append (Finding.job_name_not_capitalized job_key name)))%lint
  end.

(** Lines 242-251. *)
Definition check_env (job_key : string) (job : Job) : Lint unit :=
  match job_env job with
  | None => ret tt
  | Some env =>
      for_each
        (fun kv : string * string =>
           let k := fst kv in
           (c <- eval (Py.first k) ;;
            when (negb (Ascii.eqb c "_"))
              (append (Finding.env_without_underscore k job_key)))%lint)
        env
  end.

(** Lines 256-271. *)
Definition check_step_name (i : nat) (job_key : string) (step : Step) : Lint unit :=
  match step_name step with
  | None => append (Finding.step_name_missing i job_key)
  | Some name =>
      (c <- eval (Py.first name) ;;
       when (negb (Py.isupper c))
         (append (Finding.step_name_not_capitalized i job_key name)))%lint
  end.

(** Lines 281-309: the two checks of the revision, inside the outer [try]
    whose handler appends the missing-[@] finding. *)
Definition check_hash (i : nat) (job_key hash : string) : Lint unit :=
  try_except
    (when (negb (String.length hash =? 40)%nat) (append (Finding.hash_not_40 i job_key)) ;;
     try_except_ValueError
       (eval (Py.int16 hash))
       (append (Finding.hash_not_hex i job_key)))%lint
    (append (Finding.hash_missing_at i job_key)).

(** [if update_available:] on [None] or a text. *)
Definition truthy (o : option string) : bool :=
  match o with
  | None | Some EmptyString => false
  | Some _ => true
  end.

(** Lines 311-346. *)
Definition check_path (api : Api) (i : nat) (job_key uses path : string) : Lint unit :=
  let path_list := Py.split_max "/" 2 path in
  if Py.contains "bitwarden" path && (List.length path_list <? 3)%nat then
    append (Finding.path_missing_repository i job_key)
  else if (List.length path_list <? 2)%nat then
    append (Finding.path_missing_author i job_key)
  else
    (found <- call (action_repo_exists api uses) ;;
     if negb found then
       append (Finding.action_missing i job_key uses)
     else
       update_available <- call (get_action_update api uses) ;;
       when (truthy update_available)
         (append (Finding.action_outdated i job_key
                    (match update_available with Some u => u | None => EmptyString end))))%lint.

(** Lines 273-346: [path, hash = step["uses"].split("@")] raises
    [ValueError] unless the list has two items; the handler leaves the step
    loop. *)
Definition check_uses (api : Api) (i : nat) (job_key uses : string) : Lint flow :=
  match Py.split "@" uses with
  | [path; hash] =>
      (check_hash i job_key hash ;;
       check_path api i job_key uses path ;;
       ret Next)%lint
  | _ => ret Break
  end.

(** Lines 348-356. *)
Definition check_run (i : nat) (job_key : string) (step : Step) : Lint unit :=
  match step_run step with
  | None => ret tt
  | Some run =>
      when (Py.count (ascii_of_nat 10) run =? 1)%nat
        (append (Finding.run_single_line i job_key))
  end.

(** Lines 255-356: the body of the step loop. *)
Definition lint_step (api : Api) (job_key : string) (i : nat) (step : Step)
  : Lint flow :=
  (check_step_name i job_key step ;;
   fl <- match step_uses step with
         | Some uses => check_uses api i job_key uses
         | None => ret Next
         end ;;
   match fl with
   | Break => ret Break
   | Next => check_run i job_key step ;; ret Next
   end)%lint.

(** [for i, step in enumerate(steps, start=i)]. *)
Fixpoint lint_steps (api : Api) (job_key : string) (i : nat) (steps : list Step)
  : Lint unit :=
  match steps with
  | [] => ret tt
  | step :: rest =>
      (fl <- lint_step api job_key i step ;;
       match fl with
       | Break => ret tt
       | Next => lint_steps api job_key (S i) rest
       end)%lint
  end.

(** Lines 213-356: the body of the job loop. *)
Definition lint_job (api : Api) (job_key : string) (job : Job) : Lint unit :=
  (check_runner job ;;
   check_job_name job_key job ;;
   check_env job_key job ;;
   lint_steps api job_key 1
     (match job_steps job with Some steps => steps | None => [] end))%lint.

(** Lines 197-356: everything [lint] appends to [findings]. *)
Definition lint_findings (api : Api) (workflow : Workflow) : Lint unit :=
  (check_workflow_name workflow ;;
   match workflow_jobs workflow with
   | None => ret tt
   | Some jobs => for_each (fun kj => lint_job api (fst kj) (snd kj)) jobs
   end)%lint.

Definition initial : LintState := mkState [] [].

(** lint.py, lines 189-366, without the printing. *)
Definition lint (api : Api) (workflow : Workflow) : result Z :=
  match lint_findings api workflow initial with
  | (Ok _, st) => Ok (get_max_error_level (findings st))
  | (Raise e, _) => Raise e
  end.

(** The findings a computation leaves when run from the empty state. *)
Definition run {A : Type} (m : Lint A) : result A * LintState := m initial.

(** ** Locating the workflow files and the exit code

    The file system is an oracle: [os.path.isfile], [os.path.isdir],
    [os.walk] (the triples it yields, in order) and [os.sep]. *)

Record FileSystem : Type := mkFileSystem {
  isfile : string -> bool;
  isdir : string -> bool;
  walk : string -> list (string * list string * list string);
  sep : string
}.

(** lint.py, lines 126-130: the workflow files below one directory. *)
Definition files_below (fs : FileSystem) (path : string) : list string :=
  flat_map
    (fun entry : string * list string * list string =>
       let subdir := fst (fst entry) in
       let files := snd entry in
       filter (fun filepath => Py.endswith ".yml" filepath || Py.endswith ".yaml" filepath)
         (map (fun filename => subdir ++ sep fs ++ filename) files))
    (walk fs path).

(** lint.py, lines 116-132. *)
Definition workflow_files (fs : FileSystem) (input : string) : list string :=
  Py.sorted_set
    (flat_map
       (fun path =>
          if isfile fs path then [path]
          else if isdir fs path then files_below fs path
          else [])
       (Py.words input)).

(** [list(map(f, l))] for an [f] that can raise. *)
Fixpoint map_result {A B : Type} (f : A -> result B) (l : list A) : result (list B) :=
  match l with
  | [] => Ok []
  | x :: r =>
      match f x with
      | Raise e => Raise e
      | Ok y =>
          match map_result f r with
          | Raise e => Raise e
          | Ok ys => Ok (y :: ys)
          end
      end
  end.

(** [max(l)] for integers, [ValueError] on the empty list. *)
Definition max_of (l : list Z) : result Z :=
  match l with
  | [] => Raise ValueError
  | x :: r => Ok (fold_left Z.max r x)
  end.

(** lint.py, lines 390-406, from the parsed arguments on.  [load] is what
    [open] and [yaml.load] give for a file name. *)
Definition main (fs : FileSystem) (api : Api) (load : string -> Workflow)
           (strict : bool) (input : string) : result Z :=
  let input_files := workflow_files fs input in
  if (0 <? List.length input_files)%nat then
    match map_result (fun filename => lint api (load filename)) input_files with
    | Raise e => Raise e
    | Ok prob_levels =>
        match max_of prob_levels with
        | Raise e => Raise e
        | Ok max_error_level =>
            if (max_error_level =? PROBLEM_LEVELS error)%Z then Ok 2%Z
            else if (max_error_level =? PROBLEM_LEVELS warning)%Z
                 then Ok (if strict then 1 else 0)%Z
                 else Ok 0%Z
        end
    end
  else Ok (-1)%Z.

(** ** Vocabulary of the statements *)

(** The state after [l] has been appended to the findings. *)
Definition appending (st : LintState) (l : list LintFinding) : LintState :=
  mkState (findings st ++ l)%list (requests st).

(** What the two revision checks append for a revision: each check by its
    own condition. *)
Definition hash_findings (i : nat) (job_key hash : string) : list LintFinding :=
  ((if (String.length hash =? 40)%nat then [] else [Finding.hash_not_40 i job_key])
   ++ match Py.int16 hash with
      | Ok _ => []
      | Raise _ => [Finding.hash_not_hex i job_key]
      end)%list.

(** All characters of a text are hexadecimal digits, of either case. *)
Fixpoint all_hex (s : string) : bool :=
  match s with
  | EmptyString => true
  | String c s' => Py.ishex c && all_hex s'
  end.




(** The findings of the path, existence and staleness checks of a step. *)
Inductive reference_finding (i : nat) (job_key uses : string) : LintFinding -> Prop :=
| path_repository :
    reference_finding i job_key uses (Finding.path_missing_repository i job_key)
| path_author :
    reference_finding i job_key uses (Finding.path_missing_author i job_key)
| existence :
    reference_finding i job_key uses (Finding.action_missing i job_key uses)
| staleness (update_available : string) :
    reference_finding i job_key uses
      (Finding.action_outdated i job_key update_available).

(** A response the client reports as a failure: rate limited or
    unauthorised. *)
Definition refused (r : Response) : bool :=
  ((status r =? 403)%Z && String.eqb (reason r) "rate limit exceeded")
  || ((status r =? 401)%Z && String.eqb (reason r) "Unauthorized").

(** The largest problem level of a list of findings, [0] for none. *)
Definition max_level_present (fs : list LintFinding) : Z :=
  fold_right Z.max 0%Z (map (fun f => PROBLEM_LEVELS (level f)) fs).


(** An environment variable name that does not start with an underscore. *)
Definition without_underscore (k : string) : bool :=
  match k with
  | EmptyString => false
  | String c _ => negb (Ascii.eqb c "_")
  end.

(** A computation only adds to the findings and to the requests, whether it
    returns or raises. *)
Definition grows {A : Type} (m : Lint A) : Prop :=
  forall st : LintState,
  exists (l : list LintFinding) (sent : list string),
    snd (m st) = mkState (findings st ++ l) (requests st ++ sent).

(** A computation sends no request. *)
Definition quiet {A : Type} (m : Lint A) : Prop :=
  forall st : LintState, requests (snd (m st)) = requests st.

(** No step of the job, of the workflow, has a [uses] key. *)
Definition job_without_uses (job : Job) : Prop :=
  match job_steps job with
  | Some steps => Forall (fun step => step_uses step = None) steps
  | None => True
  end.

Definition workflow_without_uses (workflow : Workflow) : Prop :=
  match workflow_jobs workflow with
  | Some jobs => Forall (fun kj : string * Job => job_without_uses (snd kj)) jobs
  | None => True
  end.

(** The two conditions under which the path checks stop at a path finding. *)
Definition internal_short (path : string) : bool :=
  Py.contains "bitwarden" path && (List.length (Py.split_max "/" 2 path) <? 3)%nat.

Definition external_short (path : string) : bool :=
  (List.length (Py.split_max "/" 2 path) <? 2)%nat.

(** Strictly increasing in the order of code points. *)
Definition increasing (l : list string) : Prop :=
  StronglySorted (fun a b => String.compare a b = Lt) l.

(** What [workflow_files] collects for one word of its input. *)
Definition found_for (fs : FileSystem) (path p : string) : Prop :=
  (isfile fs path = true /\ p = path)
  \/ (isfile fs path = false /\ isdir fs path = true
      /\ exists (subdir : string) (dirs files : list string) (filename : string),
           In (subdir, dirs, files) (walk fs path)
           /\ In filename files
           /\ p = subdir ++ sep fs ++ filename
           /\ (Py.endswith ".yml" p = true \/ Py.endswith ".yaml" p = true)).

(** Two jobs: the step loop of the first is left at a reference without
    [@]; the second has no name. *)
Definition workflow_two_jobs : Workflow :=
  mkWorkflow (Some "CI")
    (Some [("build",
            mkJob (Some "Build") (Some "ubuntu-22.04") None
              (Some [mkStep (Some "Use") (Some "./.github/actions/setup") None;
                     mkStep None None None]));
           ("test", mkJob None (Some "ubuntu-22.04") None (Some []))]).

(** The repository of [actions/checkout] exists and has no release: every
    other request is answered "Not Found". *)
Definition api_without_release : Api :=
  fun url =>
    if String.eqb url "https://api.github.com/repos/actions/checkout"
    then mkResponse 200 "OK" (Some (JObj []))
    else mkResponse 404 "Not Found" (Some (JObj [("message", JStr "Not Found")])).

(** A file system with one file named directly and one directory. *)
Definition fs_sample : FileSystem :=
  mkFileSystem
    (fun p => String.eqb p "notes.txt")
    (fun p => String.eqb p ".github")
    (fun _ => [(".github", ["workflows"], ["README.md"]);
               (".github/workflows", [], ["build.yml"; "release.yaml"; "build.sh"])])
    "/".

(** A registry whose latest release of every repository is an annotated tag:
    the tag reference points to a tag object, which points to commit
    [sha]. *)
Definition api_annotated (sha : string) : Api :=
  fun url =>
    if String.eqb url "https://api.github.com/tagobject"
    then mkResponse 200 "OK" (Some (JObj [("object", JObj [("sha", JStr sha)])]))
    else mkResponse 200 "OK"
           (Some (JObj [("tag_name", JStr "v1");
                        ("object", JObj [("type", JStr "tag");
                                         ("url", JStr "https://api.github.com/tagobject")])])).

(** A registry over one internal repository whose newest commit on every
    path is [sha]. *)
Definition api_history (sha : string) : Api :=
  fun _ => mkResponse 200 "OK" (Some (JArr [JObj [("sha", JStr sha)]])).

(** *** Sample registries and documents *)

(** Every request is answered "rate limit exceeded". *)
Definition api_rate_limited : Api :=
  fun _ => mkResponse 403 "rate limit exceeded" None.


(** Every request is answered "Not Found". *)
Definition api_not_found : Api :=
  fun _ => mkResponse 404 "Not Found" (Some (JObj [("message", JStr "Not Found")])).

(** A registry in which every repository exists and whose latest release is
    the tag [v1] on commit [sha]. *)
Definition api_release (sha : string) : Api :=
  fun _ =>
    mkResponse 200 "OK"
      (Some (JObj [("tag_name", JStr "v1");
                   ("object", JObj [("type", JStr "commit"); ("sha", JStr sha)])])).

(** The repository answers, the release lookup is rate limited. *)
Definition api_release_limited : Api :=
  fun url =>
    if String.eqb url "https://api.github.com/repos/actions/checkout"
    then mkResponse 200 "OK" (Some (JObj []))
    else mkResponse 403 "rate limit exceeded" None.

Definition upper40 : string := "ABCDEF0123456789ABCDEF0123456789ABCDEF01".

(** A job whose first step has a reference without [@] and whose second
    step has no name and a command with one line break. *)
Definition workflow_without_at : Workflow :=
  mkWorkflow (Some "CI")
    (Some [("build",
            mkJob (Some "Build") (Some "ubuntu-22.04") None
              (Some [mkStep (Some "Use") (Some "someorg/someaction") None;
                     mkStep None None (Some (String (ascii_of_nat 10) "echo done"))]))]).

(** * Properties *)

(** ** Texts *)

Lemma split_ne_length (sep : ascii) (s : string) :
  List.length (snd (Py.split_ne sep s)) = Py.count sep s.
Proof.
  induction s as [|c s IH]; simpl; [reflexivity|].
  destruct (Py.split_ne sep s) as [h t]; simpl in IH.
  destruct (Ascii.eqb c sep); simpl; lia.
Qed.




Lemma split_ne_prefix (sep : ascii) (s : string) :
  exists rest, s = fst (Py.split_ne sep s) ++ rest.
Proof.
  induction s as [|c s [rest IH]]; simpl.
  - exists EmptyString; reflexivity.
  - destruct (Py.split_ne sep s) as [h t]; simpl in IH.
    destruct (Ascii.eqb c sep); simpl.
    + exists (String c s); reflexivity.
    + exists rest; rewrite IH at 1; reflexivity.
Qed.

Lemma prefix_app (sub s rest : string) :
  String.prefix sub s = true -> String.prefix sub (s ++ rest) = true.
Proof.
  revert s; induction sub as [|a sub IH]; intros s H.
  - destruct s; simpl; [destruct rest|]; reflexivity.
  - destruct s as [|b s]; simpl in *; [discriminate|].
    destruct (ascii_dec a b); [apply IH; exact H | discriminate].
Qed.

Lemma contains_app (sub s rest : string) :
  Py.contains sub s = true -> Py.contains sub (s ++ rest) = true.
Proof.
  induction s as [|c s IH]; simpl; intros H.
  - rewrite orb_false_r in H. destruct sub; [|discriminate].
    destruct rest; reflexivity.
  - apply orb_true_iff in H. apply orb_true_iff. destruct H as [H|H].
    + left. exact (prefix_app sub (String c s) rest H).
    + right. destruct rest; auto.
Qed.

(** ** The findings state *)

Lemma appending_nil (st : LintState) : appending st [] = st.
Proof. destruct st; unfold appending; simpl; rewrite app_nil_r; reflexivity. Qed.

Lemma appending_app (st : LintState) (l1 l2 : list LintFinding) :
  appending (appending st l1) l2 = appending st (l1 ++ l2).
Proof. unfold appending; simpl; rewrite app_assoc; reflexivity. Qed.

Lemma append_appending (f : LintFinding) (st : LintState) :
  append f st = (Ok tt, appending st [f]).
Proof. reflexivity. Qed.

(** ** The severity aggregator *)

Lemma max_by_level (f : LintFinding) (r : list LintFinding) :
  PROBLEM_LEVELS (level (max_by (fun g => PROBLEM_LEVELS (level g)) f r))
  = fold_right Z.max (PROBLEM_LEVELS (level f))
      (map (fun g => PROBLEM_LEVELS (level g)) r).
Proof.
  revert f; induction r as [|y r IH]; intros f; simpl; [reflexivity|].
  rewrite IH. clear IH.
  set (key := fun g => PROBLEM_LEVELS (level g)).
  assert (Hfold : forall a b l, fold_right Z.max (Z.max a b) l
                               = Z.max b (fold_right Z.max a l)).
  { intros a b l; induction l as [|x l IHl]; simpl; lia. }
  rewrite <- Hfold.
  destruct (Z.gtb_spec (PROBLEM_LEVELS (level y)) (PROBLEM_LEVELS (level f))) as [H|H].
  - rewrite Z.max_r by lia. reflexivity.
  - rewrite Z.max_l by lia. reflexivity.
Qed.

Lemma level_positive (f : LintFinding) : (1 <= PROBLEM_LEVELS (level f) <= 2)%Z.
Proof. destruct (level f); simpl; lia. Qed.

Lemma max_level_present_bounds (fs : list LintFinding) :
  (0 <= max_level_present fs <= 2)%Z.
Proof.
  unfold max_level_present; induction fs as [|f fs IH]; simpl; [lia|].
  pose proof (level_positive f); lia.
Qed.

Lemma max_level_present_upper (fs : list LintFinding) (h : LintFinding) :
  In h fs -> (PROBLEM_LEVELS (level h) <= max_level_present fs)%Z.
Proof.
  unfold max_level_present; induction fs as [|f fs IH]; simpl; [tauto|].
  intros [->|H]; [lia|]. specialize (IH H). lia.
Qed.

Lemma max_level_present_attained (f : LintFinding) (r : list LintFinding) :
  exists g, In g (f :: r) /\ max_level_present (f :: r) = PROBLEM_LEVELS (level g).
Proof.
  revert f; induction r as [|y r IH]; intros f.
  - exists f; split; [left; reflexivity|].
    unfold max_level_present; simpl. pose proof (level_positive f); lia.
  - destruct (IH y) as [g [Hin Hg]].
    unfold max_level_present in *. simpl in *.
    destruct (Z.le_ge_cases (PROBLEM_LEVELS (level f)) (PROBLEM_LEVELS (level g))) as [H|H].
    + exists g; split; [right; exact Hin| lia].
    + exists f; split; [left; reflexivity| lia].
Qed.

Lemma get_max_error_level_max (f : LintFinding) (r : list LintFinding) :
  get_max_error_level (f :: r) = max_level_present (f :: r).
Proof.
  unfold get_max_error_level, max_level_present. rewrite max_by_level. simpl.
  set (key := fun g => PROBLEM_LEVELS (level g)).
  pose proof (level_positive f) as Hf.
  induction r as [|x r IH]; simpl; lia.
Qed.

(** C7.  The aggregator maps the empty list to 0 and a non-empty list to the
    largest problem level present, under warning (1) below error (2): the
    result is the level of a finding of the list and no finding of the list
    has a larger one.  Two warnings aggregate to warning; warning, error,
    warning aggregate to error. *)
Theorem get_max_error_level_is_maximum :
  get_max_error_level [] = 0%Z
  /\ (forall (f : LintFinding) (r : list LintFinding),
        (exists g, In g (f :: r)
                   /\ get_max_error_level (f :: r) = PROBLEM_LEVELS (level g))
        /\ (forall h, In h (f :: r) ->
                      (PROBLEM_LEVELS (level h) <= get_max_error_level (f :: r))%Z))
  /\ (PROBLEM_LEVELS warning < PROBLEM_LEVELS error)%Z
  /\ (forall d1 d2 : string,
        get_max_error_level [mkFinding d1 warning; mkFinding d2 warning]
        = PROBLEM_LEVELS warning)
  /\ (forall d1 d2 d3 : string,
        get_max_error_level
          [mkFinding d1 warning; mkFinding d2 error; mkFinding d3 warning]
        = PROBLEM_LEVELS error).
Proof.
  split; [reflexivity|]. split; [|repeat split; reflexivity].
  intros f r. rewrite get_max_error_level_max. split.
  - apply max_level_present_attained.
  - intros h Hh. apply max_level_present_upper; exact Hh.
Qed.

Lemma get_max_error_level_is_maximum_witness :
  (PROBLEM_LEVELS (level (mkFinding "b" error))
   <= get_max_error_level [mkFinding "a" warning; mkFinding "b" error])%Z.
Proof.
  apply (proj2 (proj1 (proj2 get_max_error_level_is_maximum)
                  (mkFinding "a" warning) [mkFinding "b" error])).
  right; left; reflexivity.
Defined.

(** ** The name rules *)




(** ** The run rule *)



(** ** The revision checks *)

Lemma int16_raises_ValueError (s : string) (e : exn) :
  Py.int16 s = Raise e -> e = ValueError.
Proof.
  unfold Py.int16. intros E.
  repeat match type of E with
         | context [match ?x with _ => _ end] => destruct x
         end; congruence.
Qed.

Lemma check_hash_appends (i : nat) (job_key hash : string) (st : LintState) :
  check_hash i job_key hash st = (Ok tt, appending st (hash_findings i job_key hash)).
Proof.
  unfold check_hash, hash_findings, try_except, try_except_ValueError, bind, when, eval.
  destruct (String.length hash =? 40)%nat; simpl;
    destruct (Py.int16 hash) as [[]|e] eqn:E; simpl;
    try (apply int16_raises_ValueError in E; subst e);
    unfold append, appending; simpl;
    rewrite <- ?app_assoc, ?app_nil_r; destruct st; reflexivity.
Qed.

Lemma string_app_inv_head (a x y : string) : a ++ x = a ++ y -> x = y.
Proof.
  induction a as [|c a IH]; simpl; intros H; [exact H|].
  injection H as H. exact (IH H).
Qed.

Lemma reference_finding_not_hash (i : nat) (job_key uses : string) (f : LintFinding) :
  reference_finding i job_key uses f ->
  f <> Finding.hash_not_40 i job_key /\ f <> Finding.hash_not_hex i job_key.
Proof.
  intros H; destruct H; split; intros E; injection E as E;
    apply string_app_inv_head in E; discriminate E.
Qed.

(** What the path, existence and staleness checks leave: at most one
    finding, one of theirs, after the findings already there. *)
Lemma check_path_appends (api : Api) (i : nat) (job_key uses path : string)
      (st : LintState) :
  exists (l : list LintFinding) (sent : list string),
    snd (check_path api i job_key uses path st)
    = mkState (findings st ++ l) (requests st ++ sent)
    /\ (List.length l <= 1)%nat
    /\ Forall (reference_finding i job_key uses) l.
Proof.
  unfold check_path.
  destruct (Py.contains "bitwarden" path && _).
  { exists [Finding.path_missing_repository i job_key], [].
    simpl. rewrite app_nil_r. repeat constructor. }
  destruct (_ <? 2)%nat.
  { exists [Finding.path_missing_author i job_key], [].
    simpl. rewrite app_nil_r. repeat constructor. }
  unfold bind, call.
  destruct (action_repo_exists api uses) as [[found|e] sent1]; simpl.
  2:{ exists [], sent1. rewrite app_nil_r. repeat constructor. }
  destruct found; simpl.
  2:{ exists [Finding.action_missing i job_key uses], sent1. repeat constructor. }
  destruct (get_action_update api uses) as [[update|e] sent2]; simpl.
  2:{ exists [], (sent1 ++ sent2)%list. rewrite app_nil_r, app_assoc. repeat constructor. }
  unfold when. destruct (truthy update) eqn:T; simpl.
  - exists [Finding.action_outdated i job_key
              (match update with Some u => u | None => EmptyString end)],
      (sent1 ++ sent2)%list.
    rewrite app_assoc. repeat constructor.
  - exists [], (sent1 ++ sent2)%list. rewrite app_nil_r, app_assoc. repeat constructor.
Qed.

(** A reference with exactly one [@]: the revision checks, then the path
    checks. *)
Lemma check_uses_two (api : Api) (i : nat) (job_key uses path hash : string)
      (st : LintState) :
  Py.split "@" uses = [path; hash] ->
  check_uses api i job_key uses st
  = (match fst (check_path api i job_key uses path
                  (appending st (hash_findings i job_key hash))) with
     | Ok _ => Ok Next
     | Raise e => Raise e
     end,
     snd (check_path api i job_key uses path
            (appending st (hash_findings i job_key hash)))).
Proof.
  intros H. unfold check_uses. rewrite H. unfold bind.
  rewrite check_hash_appends.
  destruct (check_path api i job_key uses path _) as [[[]|e] st']; reflexivity.
Qed.

(** C3, as the code has it.  The length check and the hexadecimal check of a
    revision are evaluated separately, each appending its error by its own
    condition (length other than 40; [int(hash, 16)] raising), so a revision
    failing both, such as "xyz", gets both.  For "someorg/someaction@abc"
    the step gets the length error and no hexadecimal error, since "abc" is
    hexadecimal. *)
Theorem hash_checks_independent :
  (forall (i : nat) (job_key hash : string) (st : LintState),
      check_hash i job_key hash st
      = (Ok tt,
         appending st
           ((if (String.length hash =? 40)%nat then []
             else [Finding.hash_not_40 i job_key])
            ++ match Py.int16 hash with
               | Ok _ => []
               | Raise _ => [Finding.hash_not_hex i job_key]
               end)))
  /\ (forall (api : Api) (i : nat) (job_key : string) (st : LintState),
        exists l : list LintFinding,
          findings (snd (check_uses api i job_key "someorg/someaction@abc" st))
          = (findings st ++ Finding.hash_not_40 i job_key :: l)%list
          /\ ~ In (Finding.hash_not_40 i job_key) l
          /\ ~ In (Finding.hash_not_hex i job_key) l)
  /\ (forall (i : nat) (job_key : string),
        hash_findings i job_key "xyz"
        = [Finding.hash_not_40 i job_key; Finding.hash_not_hex i job_key]).
Proof.
  split; [exact check_hash_appends|].
  split; [|reflexivity].
  intros api i job_key st.
  rewrite (check_uses_two api i job_key "someorg/someaction@abc"
             "someorg/someaction" "abc" st eq_refl).
  simpl snd.
  destruct (check_path_appends api i job_key "someorg/someaction@abc"
              "someorg/someaction" (appending st (hash_findings i job_key "abc")))
    as [l [sent [-> [_ Hl]]]].
  exists l. simpl. rewrite <- app_assoc. split; [reflexivity|].
  rewrite Forall_forall in Hl.
  split; intros Hin; apply Hl in Hin;
    apply reference_finding_not_hash in Hin; destruct Hin; congruence.
Qed.

(** ** The registry client *)

Lemma get_github_api_response_refused (api : Api) (url action_id : string) :
  get_github_api_response api url action_id
  = (Ok (if refused (api url) then None else Some (api url)), [url]).
Proof.
  unfold get_github_api_response, refused.
  destruct ((status (api url) =? 403)%Z && _); [reflexivity|].
  destruct ((status (api url) =? 401)%Z && _); reflexivity.
Qed.

Lemma refused_iff (r : Response) :
  refused r = true
  <-> (status r = 403%Z /\ reason r = "rate limit exceeded")
      \/ (status r = 401%Z /\ reason r = "Unauthorized").
Proof.
  unfold refused.
  rewrite orb_true_iff, !andb_true_iff, !Z.eqb_eq, !String.eqb_eq. tauto.
Qed.

Lemma refused_not_404 (r : Response) : refused r = true -> status r <> 404%Z.
Proof. intros H; apply refused_iff in H; lia. Qed.

Ltac reg_unfold := cbv beta iota delta [reg_bind reg_lift reg_ret reg_raise].

Lemma action_repo_exists_cases (api : Api) (action_id : string) :
  action_repo_exists api action_id = (Ok true, [])
  \/ action_repo_exists api action_id = (Raise IndexError, [])
  \/ exists url,
       action_repo_exists api action_id
       = (Ok (negb (negb (refused (api url)) && (status (api url) =? 404)%Z)), [url]).
Proof.
  unfold action_repo_exists.
  destruct (Py.contains "./" action_id); [left; reflexivity|].
  destruct (Py.split_ne "@" action_id) as [path hash].
  destruct (Py.contains "bitwarden" path).
  - unfold Py.item.
    destruct (nth_error _ 0) as [p0|]; [|right; left; reflexivity].
    destruct (nth_error _ 1) as [p1|]; [|right; left; reflexivity].
    right; right.
    exists ("https://api.github.com/repos/" ++ p0 ++ "/" ++ p1).
    reg_unfold. rewrite get_github_api_response_refused.
    destruct (refused _); [reflexivity|].
    destruct (_ =? 404)%Z; reflexivity.
  - right; right.
    exists ("https://api.github.com/repos/" ++ path).
    reg_unfold. rewrite get_github_api_response_refused.
    destruct (refused _); [reflexivity|].
    destruct (_ =? 404)%Z; reflexivity.
Qed.

Ltac reg_cases H :=
  repeat first
    [ rewrite get_github_api_response_refused in H
    | progress cbv beta iota delta [reg_bind reg_lift reg_ret reg_raise Py.item] in H
    | match type of H with
      | context [match ?x with _ => _ end] =>
          lazymatch x with
          | context [match _ with _ => _ end] => fail
          | _ => destruct x eqn:?
          end
      end ].




(** ** Local references *)

Lemma split_max_nonempty (sep : ascii) (m : nat) (s : string) :
  1 <= List.length (Py.split_max sep m s).
Proof.
  revert m; induction s as [|c s IH]; intros [|m]; simpl; try lia.
  destruct (Ascii.eqb c sep); simpl; [lia|].
  specialize (IH (S m)). destruct (Py.split_max sep (S m) s); simpl in *; lia.
Qed.

Lemma split_max_length (sep : ascii) (m : nat) (s : string) :
  List.length (Py.split_max sep m s) <= S m.
Proof.
  revert m; induction s as [|c s IH]; intros [|m]; simpl; try lia.
  destruct (Ascii.eqb c sep); simpl.
  - specialize (IH m); lia.
  - specialize (IH (S m)). destruct (Py.split_max sep (S m) s); simpl in *; lia.
Qed.

Lemma contains_dot_slash_segments (s : string) :
  Py.contains "./" s = true -> 2 <= List.length (Py.split_max "/" 2 s).
Proof.
  induction s as [|c s IH]; intros H; [discriminate|].
  change (Py.contains "./" (String c s))
    with (String.prefix "./" (String c s) || Py.contains "./" s) in H.
  apply orb_true_iff in H. destruct H as [H|H].
  - destruct s as [|d s]; cbn [String.prefix] in H;
      destruct (ascii_dec "." c) as [E|]; try discriminate; subst c.
    destruct (ascii_dec "/" d) as [E|]; [subst d|discriminate].
    simpl. pose proof (split_max_nonempty "/" 1 s). lia.
  - specialize (IH H). simpl. destruct (Ascii.eqb c "/"); simpl.
    + pose proof (split_max_nonempty "/" 1 s). lia.
    + destruct (Py.split_max "/" 2 s); simpl in *; lia.
Qed.

Lemma split_two_prefix (uses path hash : string) :
  Py.split "@" uses = [path; hash] ->
  Py.split_ne "@" uses = (path, [hash]) /\ exists rest, uses = path ++ rest.
Proof.
  unfold Py.split. intros H.
  pose proof (split_ne_prefix "@" uses) as [rest Hrest].
  destruct (Py.split_ne "@" uses) as [h t]. injection H as -> ->.
  split; [reflexivity|]. exists rest; exact Hrest.
Qed.

Lemma local_action_repo_exists (api : Api) (action_id : string) :
  Py.contains "./" action_id = true ->
  action_repo_exists api action_id = (Ok true, []).
Proof. intros H. unfold action_repo_exists. rewrite H. reflexivity. Qed.

Lemma local_get_action_update (api : Api) (action_id : string) :
  Py.contains "./" action_id = true ->
  get_action_update api action_id = (Ok None, []).
Proof. intros H. unfold get_action_update. rewrite H. reflexivity. Qed.

(** C2, as the code has it.  For a reference containing [./] the existence
    check reports true and update resolution reports no update, without any
    request.  A step whose reference has one [@] and a path containing [./]
    gets no existence or staleness finding and sends no request; it still
    gets the findings of the two revision checks, and the three-segment
    path finding when its path also contains "bitwarden". *)
Theorem local_reference_no_remote_checks :
  (forall (api : Api) (action_id : string),
      Py.contains "./" action_id = true ->
      action_repo_exists api action_id = (Ok true, [])
      /\ get_action_update api action_id = (Ok None, []))
  /\ (forall (api : Api) (i : nat) (job_key uses path hash : string) (st : LintState),
        Py.split "@" uses = [path; hash] ->
        Py.contains "./" path = true ->
        check_uses api i job_key uses st
        = (Ok Next,
           appending st
             (hash_findings i job_key hash
              ++ (if Py.contains "bitwarden" path
                     && (List.length (Py.split_max "/" 2 path) <? 3)%nat
                  then [Finding.path_missing_repository i job_key]
                  else [])))).
Proof.
  split.
  - intros api action_id H. split.
    + apply local_action_repo_exists; exact H.
    + apply local_get_action_update; exact H.
  - intros api i job_key uses path hash st Hsplit Hlocal.
    rewrite (check_uses_two api i job_key uses path hash st Hsplit).
    destruct (split_two_prefix uses path hash Hsplit) as [_ [rest ->]].
    pose proof (contains_app "./" path rest Hlocal) as Huses.
    pose proof (contains_dot_slash_segments path Hlocal) as Hseg.
    unfold check_path.
    destruct (Py.contains "bitwarden" path && _).
    + rewrite append_appending, appending_app. reflexivity.
    + destruct (Nat.ltb_spec (List.length (Py.split_max "/" 2 path)) 2) as [Hlt|_];
        [lia|].
      unfold bind, call.
      rewrite (local_action_repo_exists api _ Huses).
      rewrite (local_get_action_update api _ Huses).
      simpl. unfold ret, appending. simpl.
      rewrite !app_nil_r. reflexivity.
Qed.

Lemma local_reference_no_remote_checks_witness :
  (action_repo_exists api_not_found "./local/workflow.yml@anything" = (Ok true, [])
   /\ get_action_update api_not_found "./local/workflow.yml@anything" = (Ok None, []))
  /\ check_uses api_not_found 1 "build" "./local/workflow.yml@anything" initial
     = (Ok Next,
        appending initial
          [Finding.hash_not_40 1 "build"; Finding.hash_not_hex 1 "build"]).
Proof.
  split.
  - apply (proj1 local_reference_no_remote_checks api_not_found
             "./local/workflow.yml@anything").
    reflexivity.
  - apply (proj2 local_reference_no_remote_checks api_not_found 1 "build"
             "./local/workflow.yml@anything" "./local/workflow.yml" "anything" initial);
      reflexivity.
Defined.

(** C2 as stated fails: the step with the local reference
    "./local/workflow.yml@anything" gets both revision findings. *)
Lemma local_reference_hash_flagged :
  Py.contains "./" "./local/workflow.yml" = true
  /\ findings (snd (run (check_uses api_not_found 1 "build"
                           "./local/workflow.yml@anything")))
     = [Finding.hash_not_40 1 "build"; Finding.hash_not_hex 1 "build"].
Proof. split; reflexivity. Qed.

(** ** Internal and external paths *)


(** The three ways the path checks of a step end. *)
Lemma check_path_cases (api : Api) (i : nat) (job_key uses path : string)
      (st : LintState) :
  let internal_short :=
    Py.contains "bitwarden" path && (List.length (Py.split_max "/" 2 path) <? 3)%nat in
  let short := (List.length (Py.split_max "/" 2 path) <? 2)%nat in
  exists (l : list LintFinding) (sent : list string),
    snd (check_path api i job_key uses path st)
    = mkState (findings st ++ l) (requests st ++ sent)
    /\ ((internal_short = true
         /\ l = [Finding.path_missing_repository i job_key] /\ sent = [])
        \/ (internal_short = false /\ short = true
            /\ l = [Finding.path_missing_author i job_key] /\ sent = [])
        \/ (internal_short = false /\ short = false
            /\ (l = [] \/ l = [Finding.action_missing i job_key uses]
                \/ exists u, l = [Finding.action_outdated i job_key u]))).
Proof.
  intros internal_short short. unfold check_path. fold internal_short short.
  destruct internal_short.
  { exists [Finding.path_missing_repository i job_key], [].
    simpl. rewrite app_nil_r. auto. }
  destruct short.
  { exists [Finding.path_missing_author i job_key], [].
    simpl. rewrite app_nil_r. auto 10. }
  unfold bind, call.
  destruct (action_repo_exists api uses) as [[found|e] sent1]; simpl.
  2:{ exists [], sent1. rewrite app_nil_r. auto 10. }
  destruct found; simpl.
  2:{ exists [Finding.action_missing i job_key uses], sent1. auto 10. }
  destruct (get_action_update api uses) as [[update|e] sent2]; simpl.
  2:{ exists [], (sent1 ++ sent2)%list. rewrite app_nil_r, app_assoc. auto 10. }
  unfold when. destruct (truthy update) eqn:T; simpl.
  - exists [Finding.action_outdated i job_key
              (match update with Some u => u | None => EmptyString end)],
      (sent1 ++ sent2)%list.
    rewrite app_assoc. split; [reflexivity|]. right; right.
    repeat split. right; right. eexists; reflexivity.
  - exists [], (sent1 ++ sent2)%list. rewrite app_nil_r, app_assoc. auto 10.
Qed.






(** ** Revisions the checks accept *)

Lemma scan_digits_all_hex (s : string) :
  all_hex s = true -> Py.scan_digits false s = Some EmptyString.
Proof.
  induction s as [|c s IH]; simpl; [reflexivity|].
  intros H. apply andb_true_iff in H. destruct H as [Hc Hs].
  rewrite Hc. exact (IH Hs).
Qed.

Lemma hex_first_kept (c : ascii) (s : string) :
  Py.ishex c = true ->
  Py.skip_sign (Py.skip_spaces (String c s)) = String c s
  /\ Ascii.eqb c "_" = false
  /\ (Ascii.eqb c "x" || Ascii.eqb c "X") = false.
Proof.
  destruct c as [[] [] [] [] [] [] [] []]; vm_compute; intros H;
    try discriminate H; repeat split.
Qed.

Lemma int16_all_hex (s : string) :
  s <> EmptyString -> all_hex s = true -> Py.int16 s = Ok tt.
Proof.
  intros Hne Hall. destruct s as [|c s]; [congruence|].
  pose proof Hall as Hall'. simpl in Hall'. apply andb_true_iff in Hall'.
  destruct Hall' as [Hc Hs].
  destruct (hex_first_kept c s Hc) as [Hkeep [Hus _]].
  unfold Py.int16. rewrite Hkeep.
  assert (Hprefix : Py.skip_prefix16 (String c s) = String c s).
  { destruct s as [|d s]; [destruct c as [[] [] [] [] [] [] [] []]; reflexivity|].
    simpl in Hs. apply andb_true_iff in Hs. destruct Hs as [Hd _].
    destruct (hex_first_kept d s Hd) as [_ [_ Hx]].
    unfold Py.skip_prefix16.
    destruct c as [[] [] [] [] [] [] [] []]; try reflexivity.
    rewrite Hx. reflexivity. }
  rewrite Hprefix, (scan_digits_all_hex _ Hall).
  destruct c as [[] [] [] [] [] [] [] []]; try discriminate Hus; reflexivity.
Qed.

(** C5, as the code has it.  For a reference with one [@] whose revision is
    not 40 characters long or is not accepted by [int(hash, 16)], the step
    gets an error finding from the revision checks.  Hexadecimal digits of
    either case are accepted: a revision of 40 of them gets no finding from
    the revision checks. *)
Theorem revision_defects_are_findings :
  (forall (api : Api) (i : nat) (job_key uses path hash : string) (st : LintState),
      Py.split "@" uses = [path; hash] ->
      String.length hash <> 40 \/ Py.int16 hash = Raise ValueError ->
      exists (f : LintFinding) (before after : list LintFinding),
        findings (snd (check_uses api i job_key uses st))
        = (findings st ++ before ++ f :: after)%list
        /\ level f = error
        /\ (f = Finding.hash_not_40 i job_key \/ f = Finding.hash_not_hex i job_key))
  /\ (forall (i : nat) (job_key hash : string) (st : LintState),
        String.length hash = 40 -> all_hex hash = true ->
        check_hash i job_key hash st = (Ok tt, st)).
Proof.
  split.
  - intros api i job_key uses path hash st Hsplit Hbad.
    rewrite (check_uses_two api i job_key uses path hash st Hsplit). simpl snd.
    destruct (check_path_appends api i job_key uses path
                (appending st (hash_findings i job_key hash)))
      as [l [sent [-> _]]].
    simpl findings. unfold hash_findings.
    destruct Hbad as [Hlen|Hhex].
    + apply Nat.eqb_neq in Hlen. rewrite Hlen.
      exists (Finding.hash_not_40 i job_key), [].
      eexists. rewrite <- !app_assoc. simpl. repeat split. left; reflexivity.
    + rewrite Hhex.
      exists (Finding.hash_not_hex i job_key).
      exists (if (String.length hash =? 40)%nat then []
              else [Finding.hash_not_40 i job_key]), l.
      rewrite <- !app_assoc. simpl. repeat split. right; reflexivity.
  - intros i job_key hash st Hlen Hall.
    rewrite check_hash_appends. unfold hash_findings.
    rewrite Hlen, int16_all_hex; [simpl; rewrite appending_nil; reflexivity| |exact Hall].
    intros ->; discriminate Hlen.
Qed.

Lemma revision_defects_are_findings_witness :
  (exists (f : LintFinding) (before after : list LintFinding),
      findings (snd (check_uses api_rate_limited 1 "build" "actions/checkout@v4" initial))
      = (findings initial ++ before ++ f :: after)%list
      /\ level f = error
      /\ (f = Finding.hash_not_40 1 "build" \/ f = Finding.hash_not_hex 1 "build"))
  /\ check_hash 1 "build" upper40 initial = (Ok tt, initial).
Proof.
  split.
  - apply (proj1 revision_defects_are_findings api_rate_limited 1 "build"
             "actions/checkout@v4" "actions/checkout" "v4" initial eq_refl).
    left. vm_compute. discriminate.
  - apply (proj2 revision_defects_are_findings 1 "build" upper40 initial);
      reflexivity.
Defined.

(** C5 as stated fails: a remote reference pinned to 40 upper-case
    hexadecimal characters, in a registry where the repository exists and the
    latest release is that commit, gets no finding at all. *)
Lemma uppercase_revision_not_flagged :
  String.length upper40 = 40
  /\ all_hex upper40 = true
  /\ Py.contains "./" ("actions/checkout@" ++ upper40) = false
  /\ run (check_uses (api_release upper40) 1 "build" ("actions/checkout@" ++ upper40))
     = (Ok Next,
        mkState []
          ["https://api.github.com/repos/actions/checkout";
           "https://api.github.com/repos/actions/checkout/releases/latest";
           "https://api.github.com/repos/actions/checkout/git/ref/tags/v1"]).
Proof. repeat split. Qed.

(** ** Splitting a reference *)

Lemma check_uses_not_two (api : Api) (i : nat) (job_key uses : string) (st : LintState) :
  Py.count "@" uses <> 1 -> check_uses api i job_key uses st = (Ok Break, st).
Proof.
  intros H. unfold check_uses, Py.split.
  pose proof (split_ne_length "@" uses) as Hlen.
  destruct (Py.split_ne "@" uses) as [path hash]. simpl in Hlen.
  destruct hash as [|h [|h' t]]; simpl in Hlen; try reflexivity. lia.
Qed.



(** C3 as stated fails: the step with "someorg/someaction@abc" gets the
    length error and no hexadecimal error. *)
Lemma abc_is_hexadecimal :
  findings (snd (run (check_uses api_rate_limited 1 "build" "someorg/someaction@abc")))
  = [Finding.hash_not_40 1 "build"]
  /\ ~ In (Finding.hash_not_hex 1 "build")
       (findings (snd (run (check_uses api_rate_limited 1 "build"
                              "someorg/someaction@abc")))).
Proof.
  split; [reflexivity|]. intros [E|[]]. discriminate E.
Qed.

(** ** A reference without [@] *)

(** C1, where the code departs from it.  In [workflow_without_at] the first
    step of the job has the reference "someorg/someaction", without [@], and
    the second step has no name and a command with one line break.  [lint]
    appends no finding at all: no missing-[@] error for the first step, and
    the second step is never evaluated. *)
Theorem missing_at_leaves_step_loop :
  forall api : Api,
    check_uses api 1 "build" "someorg/someaction" initial = (Ok Break, initial)
    /\ run (lint_findings api workflow_without_at) = (Ok tt, initial)
    /\ lint api workflow_without_at = Ok 0%Z.
Proof. intros api. repeat split. Qed.

(** ** The model on the inputs of the specification *)

Example split_two_at : Py.split "@" "a@b@c" = ["a"; "b"; "c"].
Proof. reflexivity. Qed.

Example split_segments :
  Py.split_max "/" 2 "bitwarden/gh-actions/a/b" = ["bitwarden"; "gh-actions"; "a/b"].
Proof. reflexivity. Qed.

Example int16_prefixed : Py.int16 " -0x_dead_BEEF " = Ok tt.
Proof. reflexivity. Qed.

Example int16_bare_prefix : Py.int16 "0x" = Raise ValueError.
Proof. reflexivity. Qed.

Example int16_double_underscore : Py.int16 "a__b" = Raise ValueError.
Proof. reflexivity. Qed.

Example internal_reference_not_found :
  run (check_uses api_not_found 1 "build"
         "bitwarden/gh-actions/version-bump@03ad9a873c39cdc95dd8d77dbbda67f84db43945")
  = (Ok Next,
     mkState
       [Finding.action_missing 1 "build"
          "bitwarden/gh-actions/version-bump@03ad9a873c39cdc95dd8d77dbbda67f84db43945"]
       ["https://api.github.com/repos/bitwarden/gh-actions"]).
Proof. reflexivity. Qed.

Example external_reference_outdated :
  run (check_uses (api_release upper40) 1 "build"
         "actions/checkout@03ad9a873c39cdc95dd8d77dbbda67f84db43945")
  = (Ok Next,
     mkState
       [Finding.action_outdated 1 "build"
          ("https://github.com/actions/checkout/commit/" ++ upper40)]
       ["https://api.github.com/repos/actions/checkout";
        "https://api.github.com/repos/actions/checkout/releases/latest";
        "https://api.github.com/repos/actions/checkout/git/ref/tags/v1"]).
Proof. reflexivity. Qed.

Example release_lookup_not_found_raises :
  fst (run (check_uses api_release_limited 1 "build"
              "actions/checkout@03ad9a873c39cdc95dd8d77dbbda67f84db43945"))
  = Ok Next
  /\ fst (get_action_update api_not_found
            "actions/checkout@03ad9a873c39cdc95dd8d77dbbda67f84db43945")
     = Raise KeyError.
Proof. split; reflexivity. Qed.

(** * Further properties of the code *)

(** ** Aggregating findings of several scopes *)

Lemma get_max_error_level_present (fs : list LintFinding) :
  get_max_error_level fs = max_level_present fs.
Proof. destruct fs; [reflexivity | apply get_max_error_level_max]. Qed.

(** The level of two lists of findings put together is the larger of their
    levels: aggregating the findings of several jobs or files at once gives
    what aggregating each and taking the maximum gives. *)
Theorem get_max_error_level_app :
  forall l1 l2 : list LintFinding,
    get_max_error_level (l1 ++ l2)
    = Z.max (get_max_error_level l1) (get_max_error_level l2).
Proof.
  intros l1 l2. rewrite !get_max_error_level_present. unfold max_level_present.
  rewrite map_app, fold_right_app.
  pose proof (max_level_present_bounds l2) as H2. unfold max_level_present in H2.
  induction l1 as [|f l1 IH]; simpl; lia.
Qed.

(** ** The environment rule *)

Lemma for_each_env (job_key : string) (env : list (string * string)) (st : LintState) :
  Forall (fun kv => fst kv <> EmptyString) env ->
  for_each
    (fun kv : string * string =>
       let k := fst kv in
       (c <- eval (Py.first k) ;;
        when (negb (Ascii.eqb c "_"))
          (append (Finding.env_without_underscore k job_key)))%lint)
    env st
  = (Ok tt,
     appending st
       (map (fun kv => Finding.env_without_underscore (fst kv) job_key)
          (filter (fun kv => without_underscore (fst kv)) env))).
Proof.
  intros H. revert st. induction H as [|[k v] env Hk _ IH]; intros st.
  - simpl. unfold ret. rewrite appending_nil. reflexivity.
  - simpl in *. destruct k as [|c k]; [congruence|].
    unfold bind at 1 2, eval, when. simpl.
    destruct (Ascii.eqb c "_"); simpl.
    + unfold ret. apply IH.
    + rewrite IH. unfold appending. simpl. rewrite <- app_assoc. reflexivity.
Qed.

(** When no variable name of a job's [env] is empty, the environment rule
    appends one warning for each name that does not start with an
    underscore, in the order of the mapping, and nothing for the others. *)
Theorem check_env_one_warning_per_name :
  forall (job_key : string) (job : Job) (env : list (string * string)) (st : LintState),
    job_env job = Some env ->
    Forall (fun kv => fst kv <> EmptyString) env ->
    check_env job_key job st
    = (Ok tt,
       appending st
         (map (fun kv => Finding.env_without_underscore (fst kv) job_key)
            (filter (fun kv => without_underscore (fst kv)) env))).
Proof.
  intros job_key job env st Henv Hkeys. unfold check_env. rewrite Henv.
  apply for_each_env; exact Hkeys.
Qed.

Lemma check_env_one_warning_per_name_witness :
  check_env "build"
    (mkJob None None (Some [("_OK", "1"); ("PATH", "2"); ("_X", "3"); ("home", "4")]) None)
    initial
  = (Ok tt,
     appending initial
       [Finding.env_without_underscore "PATH" "build";
        Finding.env_without_underscore "home" "build"]).
Proof.
  apply (check_env_one_warning_per_name "build"
           (mkJob None None (Some [("_OK", "1"); ("PATH", "2"); ("_X", "3"); ("home", "4")])
              None)
           [("_OK", "1"); ("PATH", "2"); ("_X", "3"); ("home", "4")] initial eq_refl).
  repeat constructor; discriminate.
Defined.

(** An empty variable name makes the environment rule raise [IndexError]:
    the names before it have been checked, the names after it are not. *)
Theorem check_env_empty_name_raises :
  forall (job_key : string) (job : Job) (before after : list (string * string))
         (value : string) (st : LintState),
    job_env job = Some (before ++ (EmptyString, value) :: after)%list ->
    Forall (fun kv => fst kv <> EmptyString) before ->
    check_env job_key job st
    = (Raise IndexError,
       appending st
         (map (fun kv => Finding.env_without_underscore (fst kv) job_key)
            (filter (fun kv => without_underscore (fst kv)) before))).
Proof.
  intros job_key job before after value st Henv Hkeys. unfold check_env. rewrite Henv.
  clear Henv. revert st. induction Hkeys as [|[k v] env Hk _ IH]; intros st.
  - simpl. unfold bind, eval. simpl. rewrite appending_nil. reflexivity.
  - simpl in *. destruct k as [|c k]; [congruence|].
    unfold bind at 1 2, eval, when. simpl.
    destruct (Ascii.eqb c "_"); simpl.
    + unfold ret. apply IH.
    + rewrite IH. unfold appending. simpl. rewrite <- app_assoc. reflexivity.
Qed.

Lemma check_env_empty_name_raises_witness :
  check_env "build"
    (mkJob None None (Some [("PATH", "2"); ("", "3"); ("home", "4")]) None) initial
  = (Raise IndexError, appending initial [Finding.env_without_underscore "PATH" "build"]).
Proof.
  apply (check_env_empty_name_raises "build"
           (mkJob None None (Some [("PATH", "2"); ("", "3"); ("home", "4")]) None)
           [("PATH", "2")] [("home", "4")] "3" initial eq_refl).
  repeat constructor; discriminate.
Defined.

(** ** Findings and requests only grow *)

Lemma grows_same {A : Type} (m : Lint A) :
  (forall st, snd (m st) = st) -> grows m.
Proof.
  intros H st. exists [], []. rewrite H, !app_nil_r. destruct st; reflexivity.
Qed.

Lemma grows_ret {A : Type} (a : A) : grows (ret a).
Proof. apply grows_same; reflexivity. Qed.

Lemma grows_eval {A : Type} (r : result A) : grows (eval r).
Proof. apply grows_same; reflexivity. Qed.

Lemma grows_append (f : LintFinding) : grows (append f).
Proof. intros st. exists [f], []. simpl. rewrite app_nil_r. reflexivity. Qed.

Lemma grows_call {A : Type} (m : Reg A) : grows (call m).
Proof. intros st. exists [], (snd m). simpl. rewrite app_nil_r. reflexivity. Qed.

Lemma grows_bind {A B : Type} (m : Lint A) (f : A -> Lint B) :
  grows m -> (forall a, grows (f a)) -> grows (bind m f).
Proof.
  intros Hm Hf st. unfold bind.
  destruct (Hm st) as [l1 [s1 H1]].
  destruct (m st) as [[a|e] st1]; simpl in H1; subst st1.
  - destruct (Hf a (mkState (findings st ++ l1) (requests st ++ s1))) as [l2 [s2 H2]].
    exists (l1 ++ l2)%list, (s1 ++ s2)%list. rewrite H2. simpl.
    rewrite !app_assoc. reflexivity.
  - exists l1, s1. reflexivity.
Qed.

Lemma grows_when (b : bool) (m : Lint unit) : grows m -> grows (when b m).
Proof. intros H. destruct b; [exact H | apply grows_ret]. Qed.

Lemma grows_for_each {A : Type} (body : A -> Lint unit) (l : list A) :
  (forall x, grows (body x)) -> grows (for_each body l).
Proof.
  intros H. induction l as [|x l IH]; simpl.
  - apply grows_ret.
  - apply grows_bind; [apply H | intros _; exact IH].
Qed.

Lemma grows_name_rule (name : string) (f : LintFinding) :
  grows (c <- eval (Py.first name) ;; when (negb (Py.isupper c)) (append f))%lint.
Proof.
  apply grows_bind; [apply grows_eval|]. intros c. apply grows_when, grows_append.
Qed.

Lemma grows_check_uses (api : Api) (i : nat) (job_key uses : string) :
  grows (check_uses api i job_key uses).
Proof.
  intros st. unfold check_uses.
  destruct (Py.split "@" uses) as [|path [|hash [|x t]]] eqn:E;
    try (apply grows_ret).
  pose proof (check_uses_two api i job_key uses path hash st E) as H.
  unfold check_uses in H. rewrite E in H. rewrite H. simpl snd.
  destruct (check_path_appends api i job_key uses path
              (appending st (hash_findings i job_key hash))) as [l [sent [-> _]]].
  exists (hash_findings i job_key hash ++ l)%list, sent. simpl.
  rewrite app_assoc. reflexivity.
Qed.

Lemma grows_lint_step (api : Api) (job_key : string) (i : nat) (step : Step) :
  grows (lint_step api job_key i step).
Proof.
  unfold lint_step. apply grows_bind.
  - unfold check_step_name. destruct (step_name step);
      [apply grows_name_rule | apply grows_append].
  - intros _. apply grows_bind.
    + destruct (step_uses step); [apply grows_check_uses | apply grows_ret].
    + intros [|]; [|apply grows_ret].
      apply grows_bind; [|intros; apply grows_ret].
      unfold check_run. destruct (step_run step); [|apply grows_ret].
      apply grows_when, grows_append.
Qed.

Lemma grows_lint_steps (api : Api) (job_key : string) (steps : list Step) (i : nat) :
  grows (lint_steps api job_key i steps).
Proof.
  revert i. induction steps as [|step rest IH]; intros i; simpl.
  - apply grows_ret.
  - apply grows_bind; [apply grows_lint_step|].
    intros [|]; [apply IH | apply grows_ret].
Qed.

Lemma grows_lint_job (api : Api) (job_key : string) (job : Job) :
  grows (lint_job api job_key job).
Proof.
  unfold lint_job. apply grows_bind.
  { unfold check_runner. apply grows_when, grows_append. }
  intros _. apply grows_bind.
  { unfold check_job_name. destruct (job_name job);
      [apply grows_name_rule | apply grows_append]. }
  intros _. apply grows_bind.
  { unfold check_env. destruct (job_env job); [|apply grows_ret].
    apply grows_for_each. intros kv. apply grows_bind; [apply grows_eval|].
    intros c. apply grows_when, grows_append. }
  intros _. apply grows_lint_steps.
Qed.


(** ** Jobs after a step loop that was left *)

Lemma lint_job_reports_missing_name (api : Api) (job_key : string) (job : Job)
      (st : LintState) :
  job_name job = None ->
  In (Finding.job_name_missing job_key) (findings (snd (lint_job api job_key job st))).
Proof.
  intros Hname. unfold lint_job, check_runner, check_job_name. rewrite Hname.
  set (rest := (check_env job_key job ;; lint_steps api job_key 1 _)%lint).
  assert (Hrest : grows rest).
  { pose proof (grows_lint_job api job_key job) as H.
    unfold rest. apply grows_bind.
    - unfold check_env. destruct (job_env job); [|apply grows_ret].
      apply grows_for_each. intros kv. apply grows_bind; [apply grows_eval|].
      intros c. apply grows_when, grows_append.
    - intros _. apply grows_lint_steps. }
  unfold bind at 1 2, when.
  destruct (Py.contains "-latest" _); unfold append, ret; cbv beta iota;
    match goal with |- context [rest ?s] => destruct (Hrest s) as [l [sent ->]] end;
    simpl; rewrite !in_app_iff; simpl; auto.
Qed.

Lemma for_each_jobs_reported (api : Api) (jobs : list (string * Job)) :
  forall (st st' : LintState),
    for_each (fun kj => lint_job api (fst kj) (snd kj)) jobs st = (Ok tt, st') ->
    forall (job_key : string) (job : Job),
      In (job_key, job) jobs -> job_name job = None ->
      In (Finding.job_name_missing job_key) (findings st').
Proof.
  induction jobs as [|[k j] jobs IH]; intros st st' H job_key job Hin Hname;
    [destruct Hin|].
  simpl in H. unfold bind in H.
  destruct (lint_job api k j st) as [[[]|e] st1] eqn:E; [|discriminate].
  destruct Hin as [Heq|Hin].
  - injection Heq as -> ->.
    pose proof (lint_job_reports_missing_name api job_key job st Hname) as Hhere.
    rewrite E in Hhere. simpl in Hhere.
    destruct (grows_for_each (fun kj => lint_job api (fst kj) (snd kj)) jobs
                (fun kj => grows_lint_job api (fst kj) (snd kj)) st1) as [l [sent Hg]].
    rewrite H in Hg. simpl in Hg. subst st'. simpl.
    apply in_or_app; left; exact Hhere.
  - exact (IH st1 st' H job_key job Hin Hname).
Qed.

(** When [lint] runs to its end, every job without a [name] key has its
    missing-name warning among the findings: leaving the step loop of one
    job does not stop the jobs after it. *)
Theorem missing_job_names_all_reported :
  forall (api : Api) (workflow : Workflow) (jobs : list (string * Job))
         (st st' : LintState),
    workflow_jobs workflow = Some jobs ->
    lint_findings api workflow st = (Ok tt, st') ->
    forall (job_key : string) (job : Job),
      In (job_key, job) jobs -> job_name job = None ->
      In (Finding.job_name_missing job_key) (findings st').
Proof.
  intros api workflow jobs st st' Hjobs H. unfold lint_findings in H.
  rewrite Hjobs in H. unfold bind in H.
  destruct (check_workflow_name workflow st) as [[[]|e] st1]; [|discriminate].
  exact (for_each_jobs_reported api jobs st1 st' H).
Qed.

Lemma missing_job_names_all_reported_witness :
  In (Finding.job_name_missing "test")
    (findings (snd (run (lint_findings api_not_found workflow_two_jobs)))).
Proof.
  apply (missing_job_names_all_reported api_not_found workflow_two_jobs
           [("build",
             mkJob (Some "Build") (Some "ubuntu-22.04") None
               (Some [mkStep (Some "Use") (Some "./.github/actions/setup") None;
                      mkStep None None None]));
            ("test", mkJob None (Some "ubuntu-22.04") None (Some []))]
           initial (snd (run (lint_findings api_not_found workflow_two_jobs)))
           eq_refl eq_refl "test" (mkJob None (Some "ubuntu-22.04") None (Some []))).
  - right; left; reflexivity.
  - reflexivity.
Defined.

(** ** Steps after a reference that does not split in two *)

Lemma lint_step_leaves (api : Api) (job_key : string) (i : nat) (step : Step)
      (uses : string) (st : LintState) :
  step_uses step = Some uses -> Py.count "@" uses <> 1 ->
  fst (lint_step api job_key i step st) <> Ok Next.
Proof.
  intros Huses Hcount. unfold lint_step. rewrite Huses. unfold bind.
  destruct (check_step_name i job_key step st) as [[[]|e] st1]; [|discriminate].
  rewrite (check_uses_not_two api i job_key uses st1 Hcount). simpl. discriminate.
Qed.

(** A step whose reference has no [@], or more than one, ends the step loop
    of its job: the steps after it are never evaluated, whatever they
    are. *)
Theorem steps_after_unsplit_reference_skipped :
  forall (api : Api) (job_key : string) (before after : list Step) (step : Step)
         (uses : string) (i : nat) (st : LintState),
    step_uses step = Some uses ->
    Py.count "@" uses <> 1 ->
    lint_steps api job_key i (before ++ step :: after) st
    = lint_steps api job_key i (before ++ [step]) st.
Proof.
  intros api job_key before after step uses i st Huses Hcount.
  revert i st. induction before as [|s before IH]; intros i st; simpl; unfold bind.
  - pose proof (lint_step_leaves api job_key i step uses st Huses Hcount) as H.
    destruct (lint_step api job_key i step st) as [[[|]|e] st1]; simpl in H;
      [congruence|reflexivity|reflexivity].
  - destruct (lint_step api job_key i s st) as [[[|]|e] st1]; try reflexivity.
    apply IH.
Qed.

Lemma steps_after_unsplit_reference_skipped_witness :
  lint_steps api_not_found "build" 1
    ([mkStep (Some "First") None None]
       ++ mkStep (Some "Use") (Some "actions/checkout") None
       :: [mkStep None None None; mkStep (Some "lower") None None]) initial
  = lint_steps api_not_found "build" 1
      ([mkStep (Some "First") None None]
         ++ [mkStep (Some "Use") (Some "actions/checkout") None]) initial.
Proof.
  apply (steps_after_unsplit_reference_skipped api_not_found "build"
           [mkStep (Some "First") None None]
           [mkStep None None None; mkStep (Some "lower") None None]
           (mkStep (Some "Use") (Some "actions/checkout") None)
           "actions/checkout" 1 initial eq_refl).
  vm_compute. discriminate.
Defined.

(** ** Workflows without references *)

Lemma quiet_same {A : Type} (m : Lint A) :
  (forall st, requests (snd (m st)) = requests st) -> quiet m.
Proof. intros H; exact H. Qed.

Lemma quiet_ret {A : Type} (a : A) : quiet (ret a).
Proof. intros st; reflexivity. Qed.

Lemma quiet_eval {A : Type} (r : result A) : quiet (eval r).
Proof. intros st; reflexivity. Qed.

Lemma quiet_append (f : LintFinding) : quiet (append f).
Proof. intros st; reflexivity. Qed.

Lemma quiet_bind {A B : Type} (m : Lint A) (f : A -> Lint B) :
  quiet m -> (forall a, quiet (f a)) -> quiet (bind m f).
Proof.
  intros Hm Hf st. unfold bind. specialize (Hm st).
  destruct (m st) as [[a|e] st1]; simpl in *; [|exact Hm].
  rewrite (Hf a st1). exact Hm.
Qed.

Lemma quiet_when (b : bool) (m : Lint unit) : quiet m -> quiet (when b m).
Proof. intros H. destruct b; [exact H | apply quiet_ret]. Qed.

Lemma quiet_for_each {A : Type} (body : A -> Lint unit) (l : list A) :
  (forall x, quiet (body x)) -> quiet (for_each body l).
Proof.
  intros H. induction l as [|x l IH]; simpl.
  - apply quiet_ret.
  - apply quiet_bind; [apply H | intros _; exact IH].
Qed.

Lemma quiet_name_rule (name : string) (f : LintFinding) :
  quiet (c <- eval (Py.first name) ;; when (negb (Py.isupper c)) (append f))%lint.
Proof.
  apply quiet_bind; [apply quiet_eval|]. intros c. apply quiet_when, quiet_append.
Qed.

Lemma lint_step_without_uses (api : Api) (job_key : string) (i : nat) (step : Step) :
  step_uses step = None ->
  quiet (lint_step api job_key i step)
  /\ forall (api' : Api) (st : LintState),
       lint_step api job_key i step st = lint_step api' job_key i step st.
Proof.
  intros H. unfold lint_step. rewrite H. split; [|reflexivity].
  apply quiet_bind.
  - unfold check_step_name. destruct (step_name step);
      [apply quiet_name_rule | apply quiet_append].
  - intros _. apply quiet_bind; [apply quiet_ret|].
    intros [|]; [|apply quiet_ret].
    apply quiet_bind; [|intros; apply quiet_ret].
    unfold check_run. destruct (step_run step); [|apply quiet_ret].
    apply quiet_when, quiet_append.
Qed.

Lemma lint_steps_without_uses (api : Api) (job_key : string) (steps : list Step) :
  Forall (fun step => step_uses step = None) steps ->
  forall i : nat,
    quiet (lint_steps api job_key i steps)
    /\ forall (api' : Api) (st : LintState),
         lint_steps api job_key i steps st = lint_steps api' job_key i steps st.
Proof.
  induction 1 as [|step rest Hstep _ IH]; intros i; simpl.
  - split; [apply quiet_ret | reflexivity].
  - destruct (lint_step_without_uses api job_key i step Hstep) as [Hq Heq]. split.
    + apply quiet_bind; [exact Hq|].
      intros [|]; [apply (IH (S i)) | apply quiet_ret].
    + intros api' st. unfold bind. rewrite (Heq api' st).
      destruct (lint_step api' job_key i step st) as [[[|]|e] st1]; try reflexivity.
      apply (IH (S i)).
Qed.

Lemma lint_job_without_uses (api : Api) (job_key : string) (job : Job) :
  job_without_uses job ->
  quiet (lint_job api job_key job)
  /\ forall (api' : Api) (st : LintState),
       lint_job api job_key job st = lint_job api' job_key job st.
Proof.
  intros H. unfold job_without_uses in H. unfold lint_job.
  assert (Hsteps : Forall (fun step => step_uses step = None)
                     (match job_steps job with Some steps => steps | None => [] end))
    by (destruct (job_steps job); [exact H | constructor]).
  destruct (lint_steps_without_uses api job_key _ Hsteps 1) as [Hq Heq]. split.
  - apply quiet_bind.
    { unfold check_runner. apply quiet_when, quiet_append. }
    intros _. apply quiet_bind.
    { unfold check_job_name. destruct (job_name job);
        [apply quiet_name_rule | apply quiet_append]. }
    intros _. apply quiet_bind; [|intros _; exact Hq].
    unfold check_env. destruct (job_env job); [|apply quiet_ret].
    apply quiet_for_each. intros kv. apply quiet_bind; [apply quiet_eval|].
    intros c. apply quiet_when, quiet_append.
  - intros api' st. unfold bind.
    destruct (check_runner job st) as [[[]|e] st1]; [|reflexivity].
    destruct (check_job_name job_key job st1) as [[[]|e] st2]; [|reflexivity].
    destruct (check_env job_key job st2) as [[[]|e] st3]; [|reflexivity].
    apply Heq.
Qed.

Lemma jobs_without_uses (api : Api) (jobs : list (string * Job)) :
  Forall (fun kj : string * Job => job_without_uses (snd kj)) jobs ->
  quiet (for_each (fun kj => lint_job api (fst kj) (snd kj)) jobs)
  /\ forall (api' : Api) (st : LintState),
       for_each (fun kj => lint_job api (fst kj) (snd kj)) jobs st
       = for_each (fun kj => lint_job api' (fst kj) (snd kj)) jobs st.
Proof.
  induction 1 as [|[k j] jobs Hj _ [IHq IHeq]]; simpl.
  - split; [apply quiet_ret | reflexivity].
  - destruct (lint_job_without_uses api k j Hj) as [Hq Heq]. split.
    + apply quiet_bind; [exact Hq | intros _; exact IHq].
    + intros api' st. unfold bind. rewrite (Heq api' st).
      destruct (lint_job api' k j st) as [[[]|e] st1]; [apply IHeq | reflexivity].
Qed.

(** A workflow in which no step has a [uses] key is linted without the
    registry: [lint] sends no request, and its findings and result are the
    same under any two registries. *)
Theorem workflow_without_uses_offline :
  forall (api api' : Api) (workflow : Workflow) (st : LintState),
    workflow_without_uses workflow ->
    requests (snd (lint_findings api workflow st)) = requests st
    /\ lint_findings api workflow st = lint_findings api' workflow st
    /\ lint api workflow = lint api' workflow.
Proof.
  intros api api' workflow st H. unfold workflow_without_uses in H.
  assert (Hq : quiet (lint_findings api workflow)).
  { unfold lint_findings. apply quiet_bind.
    { unfold check_workflow_name. destruct (workflow_name workflow);
        [apply quiet_name_rule | apply quiet_append]. }
    intros _. destruct (workflow_jobs workflow) as [jobs|]; [|apply quiet_ret].
    apply (jobs_without_uses api jobs H). }
  assert (Heq : forall st0, lint_findings api workflow st0
                            = lint_findings api' workflow st0).
  { intros st0. unfold lint_findings, bind.
    destruct (check_workflow_name workflow st0) as [[[]|e] st1]; [|reflexivity].
    destruct (workflow_jobs workflow) as [jobs|]; [|reflexivity].
    apply (jobs_without_uses api jobs H). }
  split; [apply Hq|]. split; [apply Heq|].
  unfold lint. rewrite Heq. reflexivity.
Qed.

Lemma workflow_without_uses_offline_witness :
  lint api_not_found
    (mkWorkflow None (Some [("test", mkJob None (Some "ubuntu-latest") None
                                       (Some [mkStep None None (Some "make")]))]))
  = lint (api_release upper40)
      (mkWorkflow None (Some [("test", mkJob None (Some "ubuntu-latest") None
                                         (Some [mkStep None None (Some "make")]))])).
Proof.
  apply (workflow_without_uses_offline api_not_found (api_release upper40)
           (mkWorkflow None (Some [("test", mkJob None (Some "ubuntu-latest") None
                                              (Some [mkStep None None (Some "make")]))]))
           initial).
  repeat constructor.
Defined.

(** ** An empty workflow name *)

(** A workflow whose [name] is the empty text makes [lint] raise
    [IndexError], whatever else the document holds: no finding is
    reported. *)
Theorem empty_workflow_name_raises :
  forall (api : Api) (workflow : Workflow),
    workflow_name workflow = Some EmptyString ->
    lint api workflow = Raise IndexError.
Proof.
  intros api workflow H. unfold lint, lint_findings, bind, check_workflow_name.
  rewrite H. reflexivity.
Qed.

Lemma empty_workflow_name_raises_witness :
  lint api_not_found (mkWorkflow (Some "") None) = Raise IndexError.
Proof.
  apply (empty_workflow_name_raises api_not_found (mkWorkflow (Some "") None)).
  reflexivity.
Defined.

(** ** Existence before staleness *)


(** When the path of a reference is long enough and the existence check
    says the action does not exist, the step gets the non-existing-action
    error and update resolution is not attempted: the existence request is
    the only request of the step. *)
Theorem missing_action_skips_update :
  forall (api : Api) (i : nat) (job_key uses path hash : string) (st : LintState),
    Py.split "@" uses = [path; hash] ->
    internal_short path = false ->
    external_short path = false ->
    fst (action_repo_exists api uses) = Ok false ->
    exists url : string,
      check_path api i job_key uses path st
      = (Ok tt,
         mkState (findings st ++ [Finding.action_missing i job_key uses])
                 (requests st ++ [url])).
Proof.
  intros api i job_key uses path hash st Hsplit Hint Hext Hfound.
  unfold check_path. fold (internal_short path) (external_short path).
  rewrite Hint, Hext. unfold bind, call.
  destruct (action_repo_exists_cases api uses) as [E|[E|[url E]]];
    rewrite E in Hfound |- *; simpl in Hfound; try discriminate.
  injection Hfound as Hfound. exists url. simpl. rewrite Hfound. reflexivity.
Qed.

Lemma missing_action_skips_update_witness :
  exists url : string,
    check_path api_not_found 1 "build" "actions/nothing@v1" "actions/nothing" initial
    = (Ok tt,
       mkState (findings initial ++ [Finding.action_missing 1 "build" "actions/nothing@v1"])
               (requests initial ++ [url])).
Proof.
  apply (missing_action_skips_update api_not_found 1 "build" "actions/nothing@v1"
           "actions/nothing" "v1" initial); reflexivity.
Defined.

(** A step pinned to 40 hexadecimal characters, with a path that is long
    enough and an action the existence check accepts, gets no error finding
    and at most one finding, the staleness warning. *)
Theorem pinned_step_at_most_one_warning :
  forall (api : Api) (i : nat) (job_key uses path hash : string) (st : LintState),
    Py.split "@" uses = [path; hash] ->
    String.length hash = 40 ->
    all_hex hash = true ->
    internal_short path = false ->
    external_short path = false ->
    fst (action_repo_exists api uses) = Ok true ->
    exists l : list LintFinding,
      findings (snd (check_uses api i job_key uses st)) = (findings st ++ l)%list
      /\ List.length l <= 1
      /\ forall f, In f l ->
                   level f = warning
                   /\ exists update, f = Finding.action_outdated i job_key update.
Proof.
  intros api i job_key uses path hash st Hsplit Hlen Hhex Hint Hext Hfound.
  rewrite (check_uses_two api i job_key uses path hash st Hsplit). simpl snd.
  assert (Hhash : hash_findings i job_key hash = []).
  { unfold hash_findings. rewrite Hlen, int16_all_hex; [reflexivity| |exact Hhex].
    intros ->; discriminate Hlen. }
  rewrite Hhash, appending_nil.
  destruct (check_path_cases api i job_key uses path st) as [l [sent [Hst Hcases]]].
  fold (internal_short path) (external_short path) in Hcases.
  rewrite Hint, Hext in Hcases.
  destruct Hcases as [[E _]|[[_ [E _]]|[_ [_ Hl]]]]; try discriminate.
  exists l. rewrite Hst. split; [reflexivity|].
  assert (Hnot : l <> [Finding.action_missing i job_key uses]).
  { intros ->. revert Hst. unfold check_path.
    fold (internal_short path) (external_short path). rewrite Hint, Hext.
    unfold bind, call.
    destruct (action_repo_exists api uses) as [[[|]|e] sent1]; simpl in Hfound;
      try discriminate. simpl.
    destruct (get_action_update api uses) as [[update|e] sent2]; simpl;
      [unfold when; destruct (truthy update); simpl|];
      intros H; injection H as H _.
    - apply app_inv_head in H. injection H as H.
      apply string_app_inv_head in H. discriminate H.
    - apply (f_equal (@List.length _)) in H. rewrite length_app in H. simpl in H. lia.
    - apply (f_equal (@List.length _)) in H. rewrite length_app in H. simpl in H. lia. }
  destruct Hl as [->|[->|[u ->]]]; [split; [simpl; lia|intros f []]|congruence|].
  split; [simpl; lia|]. intros f [<-|[]]. split; [reflexivity|]. exists u; reflexivity.
Qed.

Lemma pinned_step_at_most_one_warning_witness :
  exists l : list LintFinding,
    findings (snd (check_uses (api_release upper40) 1 "build"
                     "actions/checkout@03ad9a873c39cdc95dd8d77dbbda67f84db43945" initial))
    = (findings initial ++ l)%list
    /\ List.length l <= 1
    /\ forall f, In f l ->
                 level f = warning
                 /\ exists update, f = Finding.action_outdated 1 "build" update.
Proof.
  apply (pinned_step_at_most_one_warning (api_release upper40) 1 "build"
           "actions/checkout@03ad9a873c39cdc95dd8d77dbbda67f84db43945"
           "actions/checkout" "03ad9a873c39cdc95dd8d77dbbda67f84db43945" initial);
    reflexivity.
Defined.



(** ** Update resolution *)

Lemma prefix_append (a b : string) : String.prefix a (a ++ b) = true.
Proof.
  induction a as [|c a IH]; [destruct b; reflexivity|].
  cbn [String.append String.prefix].
  destruct (ascii_dec c c) as [_|N]; [exact IH | congruence].
Qed.

Ltac reg_goal :=
  match goal with
  | |- context [get_action_update ?api ?id] =>
      let r := fresh "r" in
      let sent := fresh "sent" in
      let E := fresh "E" in
      destruct (get_action_update api id) as [r sent] eqn:E;
      unfold get_action_update in E; reg_cases E;
      apply pair_equal_spec in E; destruct E as [<- <-]
  end.

(** An update that is reported is a link into github.com: update resolution
    never returns an empty text, so the staleness warning is appended
    whenever it returns one. *)
Theorem update_is_a_commit_link :
  forall (api : Api) (action_id update : string),
    fst (get_action_update api action_id) = Ok (Some update) ->
    String.prefix "https://github.com/" update = true
    /\ truthy (Some update) = true.
Proof.
  intros api action_id update H.
  assert (Hp : String.prefix "https://github.com/" update = true).
  { revert H. reg_goal; cbn [fst]; intros H; try discriminate H;
      match type of H with
      | Ok (Some ?x) = _ =>
          assert (Hx : x = update) by congruence; rewrite <- Hx
      end; apply prefix_append. }
  split; [exact Hp|]. destruct update; [discriminate Hp | reflexivity].
Qed.

Lemma update_is_a_commit_link_witness :
  String.prefix "https://github.com/"
    ("https://github.com/actions/checkout/commit/" ++ upper40) = true
  /\ truthy (Some ("https://github.com/actions/checkout/commit/" ++ upper40)) = true.
Proof.
  apply (update_is_a_commit_link (api_release upper40) "actions/checkout@v4").
  reflexivity.
Defined.

(** The existence check sends at most one request; update resolution sends
    at most three. *)
Theorem registry_request_bounds :
  forall (api : Api) (action_id : string),
    List.length (snd (action_repo_exists api action_id)) <= 1
    /\ List.length (snd (get_action_update api action_id)) <= 3.
Proof.
  intros api action_id. split.
  - destruct (action_repo_exists_cases api action_id) as [E|[E|[url E]]];
      rewrite E; simpl; lia.
  - reg_goal; simpl; lia.
Qed.

Lemma in_strs_In (sha : string) (hash : list string) :
  Json.in_strs (JStr sha) hash = true <-> In sha hash.
Proof.
  unfold Json.in_strs. rewrite existsb_exists. simpl. split.
  - intros [x [Hin E]]. apply String.eqb_eq in E. subst x. exact Hin.
  - intros Hin. exists sha. split; [exact Hin | apply String.eqb_refl].
Qed.

Lemma in_strs_cases (sha : string) (hash : list string) :
  (In sha hash /\ Json.in_strs (JStr sha) hash = true)
  \/ (~ In sha hash /\ Json.in_strs (JStr sha) hash = false).
Proof.
  destruct (Json.in_strs (JStr sha) hash) eqn:E.
  - left. split; [apply in_strs_In; exact E | reflexivity].
  - right. split; [|reflexivity]. intros H. apply in_strs_In in H. congruence.
Qed.

(** Internal route.  When the commit history of the sub-path is answered
    with a list whose first entry has the commit [sha], update resolution
    sends that one request and reports nothing if [sha] is one of the pieces
    of the reference after the first [@], and otherwise the link to commit
    [sha] in the repository of the first two path segments. *)
Theorem internal_update_is_newest_commit :
  forall (api : Api) (action_id path : string) (hash : list string)
         (p0 p1 p2 sha : string) (m : list (string * json)) (more : list json),
    Py.contains "./" action_id = false ->
    Py.split_ne "@" action_id = (path, hash) ->
    Py.contains "bitwarden" path = true ->
    Py.split_max "/" 2 path = [p0; p1; p2] ->
    let url := "https://api.github.com/repos/" ++ p0 ++ "/" ++ p1
                 ++ "/commits?path=" ++ p2 in
    refused (api url) = false ->
    data (api url) = Some (JArr (JObj m :: more)) ->
    Json.lookup "sha" m = Some (JStr sha) ->
    (In sha hash -> get_action_update api action_id = (Ok None, [url]))
    /\ (~ In sha hash ->
        get_action_update api action_id
        = (Ok (Some ("https://github.com/" ++ p0 ++ "/" ++ p1 ++ "/commit/" ++ sha)),
           [url])).
Proof.
  intros api action_id path hash p0 p1 p2 sha m more
         Hremote Hne Hint Hlist url Hok Hdata Hsha.
  assert (H : get_action_update api action_id
              = (Ok (if Json.in_strs (JStr sha) hash then None
                     else Some ("https://github.com/" ++ p0 ++ "/" ++ p1
                                  ++ "/commit/" ++ sha)), [url])).
  { unfold get_action_update. rewrite Hremote, Hne, Hint, Hlist.
    unfold Py.item. cbn [nth_error]. reg_unfold.
    rewrite get_github_api_response_refused. fold url. rewrite Hok.
    unfold json_loads. rewrite Hdata. cbn [Json.getindex Py.item nth_error].
    cbn [Json.getitem]. rewrite Hsha.
    destruct (Json.in_strs (JStr sha) hash); reflexivity. }
  rewrite H.
  destruct (in_strs_cases sha hash) as [[Hin ->]|[Hin ->]]; split; intros H';
    try reflexivity; contradiction.
Qed.

Lemma internal_update_is_newest_commit_witness :
  get_action_update (api_history "03ad9a873c39cdc95dd8d77dbbda67f84db43945")
    "bitwarden/gh-actions/version-bump@03ad9a873c39cdc95dd8d77dbbda67f84db43945"
  = (Ok None,
     ["https://api.github.com/repos/bitwarden/gh-actions/commits?path=version-bump"]).
Proof.
  apply (proj1 (internal_update_is_newest_commit
                  (api_history "03ad9a873c39cdc95dd8d77dbbda67f84db43945")
                  "bitwarden/gh-actions/version-bump@03ad9a873c39cdc95dd8d77dbbda67f84db43945"
                  "bitwarden/gh-actions/version-bump"
                  ["03ad9a873c39cdc95dd8d77dbbda67f84db43945"]
                  "bitwarden" "gh-actions" "version-bump"
                  "03ad9a873c39cdc95dd8d77dbbda67f84db43945"
                  [("sha", JStr "03ad9a873c39cdc95dd8d77dbbda67f84db43945")] []
                  eq_refl eq_refl eq_refl eq_refl eq_refl eq_refl eq_refl)).
  left; reflexivity.
Defined.

(** Internal route, empty history.  When the commit history of the sub-path
    is answered with an empty list, update resolution raises
    [IndexError]. *)
Theorem internal_update_empty_history_raises :
  forall (api : Api) (action_id path : string) (hash : list string)
         (p0 p1 p2 : string),
    Py.contains "./" action_id = false ->
    Py.split_ne "@" action_id = (path, hash) ->
    Py.contains "bitwarden" path = true ->
    Py.split_max "/" 2 path = [p0; p1; p2] ->
    let url := "https://api.github.com/repos/" ++ p0 ++ "/" ++ p1
                 ++ "/commits?path=" ++ p2 in
    refused (api url) = false ->
    data (api url) = Some (JArr []) ->
    get_action_update api action_id = (Raise IndexError, [url]).
Proof.
  intros api action_id path hash p0 p1 p2 Hremote Hne Hint Hlist url Hok Hdata.
  unfold get_action_update. rewrite Hremote, Hne, Hint, Hlist.
  unfold Py.item. cbn [nth_error]. reg_unfold.
  rewrite get_github_api_response_refused. fold url. rewrite Hok.
  unfold json_loads. rewrite Hdata. reflexivity.
Qed.

Lemma internal_update_empty_history_raises_witness :
  get_action_update (fun _ => mkResponse 200 "OK" (Some (JArr [])))
    "bitwarden/gh-actions/version-bump@03ad9a873c39cdc95dd8d77dbbda67f84db43945"
  = (Raise IndexError,
     ["https://api.github.com/repos/bitwarden/gh-actions/commits?path=version-bump"]).
Proof.
  apply (internal_update_empty_history_raises
           (fun _ => mkResponse 200 "OK" (Some (JArr [])))
           "bitwarden/gh-actions/version-bump@03ad9a873c39cdc95dd8d77dbbda67f84db43945"
           "bitwarden/gh-actions/version-bump"
           ["03ad9a873c39cdc95dd8d77dbbda67f84db43945"]
           "bitwarden" "gh-actions" "version-bump"
           eq_refl eq_refl eq_refl eq_refl eq_refl eq_refl).
Defined.

(** External route, tag on a commit.  When the latest release names a tag
    and the tag reference points to a commit [sha], update resolution sends
    those two requests and reports nothing if [sha] is one of the pieces of
    the reference after the first [@], and otherwise the link to commit
    [sha] in the repository. *)
Theorem external_update_is_release_commit :
  forall (api : Api) (action_id path : string) (hash : list string)
         (tag sha : string) (release ref object : list (string * json)),
    Py.contains "./" action_id = false ->
    Py.split_ne "@" action_id = (path, hash) ->
    Py.contains "bitwarden" path = false ->
    let latest := "https://api.github.com/repos/" ++ path ++ "/releases/latest" in
    let tagref := "https://api.github.com/repos/" ++ path ++ "/git/ref/tags/" ++ tag in
    refused (api latest) = false ->
    data (api latest) = Some (JObj release) ->
    Json.lookup "tag_name" release = Some (JStr tag) ->
    refused (api tagref) = false ->
    data (api tagref) = Some (JObj ref) ->
    Json.lookup "object" ref = Some (JObj object) ->
    Json.lookup "type" object = Some (JStr "commit") ->
    Json.lookup "sha" object = Some (JStr sha) ->
    (In sha hash -> get_action_update api action_id = (Ok None, [latest; tagref]))
    /\ (~ In sha hash ->
        get_action_update api action_id
        = (Ok (Some ("https://github.com/" ++ path ++ "/commit/" ++ sha)),
           [latest; tagref])).
Proof.
  intros api action_id path hash tag sha release ref object
         Hremote Hne Hext latest tagref Hok1 Hdata1 Htag Hok2 Hdata2 Hobj Hty Hsha.
  assert (H : get_action_update api action_id
              = (Ok (if Json.in_strs (JStr sha) hash then None
                     else Some ("https://github.com/" ++ path ++ "/commit/" ++ sha)),
                 [latest; tagref])).
  { unfold get_action_update. rewrite Hremote, Hne, Hext. reg_unfold.
    rewrite get_github_api_response_refused. fold latest. rewrite Hok1.
    unfold json_loads at 1. rewrite Hdata1. cbn [Json.getitem]. rewrite Htag.
    cbn [Json.str]. rewrite get_github_api_response_refused. fold tagref.
    rewrite Hok2. unfold json_loads. rewrite Hdata2. cbn [Json.getitem].
    rewrite Hobj. cbn [Json.getitem]. rewrite Hty. cbn [Json.eq_str].
    change (String.eqb "commit" "commit") with true. cbv iota. rewrite Hsha.
    destruct (Json.in_strs (JStr sha) hash); reflexivity. }
  rewrite H.
  destruct (in_strs_cases sha hash) as [[Hin ->]|[Hin ->]]; split; intros H';
    try reflexivity; contradiction.
Qed.

Lemma external_update_is_release_commit_witness :
  get_action_update (api_release upper40) "actions/checkout@v4"
  = (Ok (Some ("https://github.com/actions/checkout/commit/" ++ upper40)),
     ["https://api.github.com/repos/actions/checkout/releases/latest";
      "https://api.github.com/repos/actions/checkout/git/ref/tags/v1"]).
Proof.
  apply (proj2 (external_update_is_release_commit (api_release upper40)
                  "actions/checkout@v4" "actions/checkout" ["v4"] "v1" upper40
                  [("tag_name", JStr "v1");
                   ("object", JObj [("type", JStr "commit"); ("sha", JStr upper40)])]
                  [("tag_name", JStr "v1");
                   ("object", JObj [("type", JStr "commit"); ("sha", JStr upper40)])]
                  [("type", JStr "commit"); ("sha", JStr upper40)]
                  eq_refl eq_refl eq_refl eq_refl eq_refl eq_refl eq_refl eq_refl
                  eq_refl eq_refl eq_refl)).
  intros [H|[]]. discriminate H.
Defined.

(** External route, annotated tag.  When the tag reference points to an
    object that is not a commit, update resolution follows the object's URL
    with a third request and takes the commit [sha] that object points to. *)
Theorem external_update_follows_annotated_tag :
  forall (api : Api) (action_id path : string) (hash : list string)
         (tag follow sha : string) (kind : json)
         (release ref object tagged target : list (string * json)),
    Py.contains "./" action_id = false ->
    Py.split_ne "@" action_id = (path, hash) ->
    Py.contains "bitwarden" path = false ->
    let latest := "https://api.github.com/repos/" ++ path ++ "/releases/latest" in
    let tagref := "https://api.github.com/repos/" ++ path ++ "/git/ref/tags/" ++ tag in
    refused (api latest) = false ->
    data (api latest) = Some (JObj release) ->
    Json.lookup "tag_name" release = Some (JStr tag) ->
    refused (api tagref) = false ->
    data (api tagref) = Some (JObj ref) ->
    Json.lookup "object" ref = Some (JObj object) ->
    Json.lookup "type" object = Some kind ->
    Json.eq_str kind "commit" = false ->
    Json.lookup "url" object = Some (JStr follow) ->
    refused (api follow) = false ->
    data (api follow) = Some (JObj tagged) ->
    Json.lookup "object" tagged = Some (JObj target) ->
    Json.lookup "sha" target = Some (JStr sha) ->
    (In sha hash -> get_action_update api action_id = (Ok None, [latest; tagref; follow]))
    /\ (~ In sha hash ->
        get_action_update api action_id
        = (Ok (Some ("https://github.com/" ++ path ++ "/commit/" ++ sha)),
           [latest; tagref; follow])).
Proof.
  intros api action_id path hash tag follow sha kind release ref object tagged target
         Hremote Hne Hext latest tagref Hok1 Hdata1 Htag Hok2 Hdata2 Hobj Hty Hkind
         Hurl Hok3 Hdata3 Htarget Hsha.
  assert (H : get_action_update api action_id
              = (Ok (if Json.in_strs (JStr sha) hash then None
                     else Some ("https://github.com/" ++ path ++ "/commit/" ++ sha)),
                 [latest; tagref; follow])).
  { unfold get_action_update. rewrite Hremote, Hne, Hext. reg_unfold.
    rewrite get_github_api_response_refused. fold latest. rewrite Hok1.
    unfold json_loads at 1. rewrite Hdata1. cbn [Json.getitem]. rewrite Htag.
    cbn [Json.str]. rewrite get_github_api_response_refused. fold tagref.
    rewrite Hok2. unfold json_loads at 1. rewrite Hdata2. cbn [Json.getitem].
    rewrite Hobj. cbn [Json.getitem]. rewrite Hty, Hkind, Hurl. cbn [url_of].
    rewrite get_github_api_response_refused, Hok3.
    unfold json_loads. rewrite Hdata3. cbn [Json.getitem]. rewrite Htarget.
    cbn [Json.getitem]. rewrite Hsha.
    destruct (Json.in_strs (JStr sha) hash); reflexivity. }
  rewrite H.
  destruct (in_strs_cases sha hash) as [[Hin ->]|[Hin ->]]; split; intros H';
    try reflexivity; contradiction.
Qed.

Lemma external_update_follows_annotated_tag_witness :
  get_action_update (api_annotated upper40) ("actions/checkout@" ++ upper40)
  = (Ok None,
     ["https://api.github.com/repos/actions/checkout/releases/latest";
      "https://api.github.com/repos/actions/checkout/git/ref/tags/v1";
      "https://api.github.com/tagobject"]).
Proof.
  apply (proj1 (external_update_follows_annotated_tag (api_annotated upper40)
                  ("actions/checkout@" ++ upper40) "actions/checkout" [upper40]
                  "v1" "https://api.github.com/tagobject" upper40 (JStr "tag")
                  [("tag_name", JStr "v1");
                   ("object", JObj [("type", JStr "tag");
                                    ("url", JStr "https://api.github.com/tagobject")])]
                  [("tag_name", JStr "v1");
                   ("object", JObj [("type", JStr "tag");
                                    ("url", JStr "https://api.github.com/tagobject")])]
                  [("type", JStr "tag"); ("url", JStr "https://api.github.com/tagobject")]
                  [("object", JObj [("sha", JStr upper40)])]
                  [("sha", JStr upper40)]
                  eq_refl eq_refl eq_refl eq_refl eq_refl eq_refl eq_refl eq_refl
                  eq_refl eq_refl eq_refl eq_refl eq_refl eq_refl eq_refl eq_refl)).
  left; reflexivity.
Defined.

(** External route, no release.  When the latest-release request is answered
    with a JSON object without [tag_name] (as a repository without releases
    is, with "Not Found"), update resolution raises [KeyError] after that one
    request; a step that reaches update resolution then makes the whole of
    [lint] raise. *)
Theorem external_update_without_release_raises :
  forall (api : Api) (action_id path : string) (hash : list string)
         (body : list (string * json)),
    Py.contains "./" action_id = false ->
    Py.split_ne "@" action_id = (path, hash) ->
    Py.contains "bitwarden" path = false ->
    let latest := "https://api.github.com/repos/" ++ path ++ "/releases/latest" in
    refused (api latest) = false ->
    data (api latest) = Some (JObj body) ->
    Json.lookup "tag_name" body = None ->
    get_action_update api action_id = (Raise KeyError, [latest])
    /\ forall (i : nat) (job_key revision : string) (st : LintState),
         hash = [revision] ->
         external_short path = false ->
         fst (action_repo_exists api action_id) = Ok true ->
         fst (check_uses api i job_key action_id st) = Raise KeyError.
Proof.
  intros api action_id path hash body Hremote Hne Hext latest Hok Hdata Htag.
  assert (H : get_action_update api action_id = (Raise KeyError, [latest])).
  { unfold get_action_update. rewrite Hremote, Hne, Hext. reg_unfold.
    rewrite get_github_api_response_refused. fold latest. rewrite Hok.
    unfold json_loads. rewrite Hdata. cbn [Json.getitem]. rewrite Htag.
    reflexivity. }
  split; [exact H|].
  intros i job_key revision st -> Hshort Hfound.
  assert (Hsplit : Py.split "@" action_id = [path; revision])
    by (unfold Py.split; rewrite Hne; reflexivity).
  rewrite (check_uses_two api i job_key action_id path revision st Hsplit).
  cbn [fst]. unfold check_path. fold (internal_short path) (external_short path).
  unfold internal_short. rewrite Hext. cbn [andb]. rewrite Hshort.
  unfold bind, call.
  destruct (action_repo_exists api action_id) as [[[|]|e] sent]; simpl in Hfound;
    try discriminate Hfound.
  rewrite H. reflexivity.
Qed.

Lemma external_update_without_release_raises_witness :
  get_action_update api_without_release "actions/checkout@v4"
  = (Raise KeyError, ["https://api.github.com/repos/actions/checkout/releases/latest"])
  /\ fst (check_uses api_without_release 1 "build" "actions/checkout@v4" initial)
     = Raise KeyError.
Proof.
  destruct (external_update_without_release_raises api_without_release
              "actions/checkout@v4" "actions/checkout" ["v4"]
              [("message", JStr "Not Found")]
              eq_refl eq_refl eq_refl eq_refl eq_refl eq_refl) as [H1 H2].
  split; [exact H1|].
  exact (H2 1 "build" "v4" initial eq_refl eq_refl eq_refl).
Defined.

(** ** Locating the workflow files *)

Lemma compare_lt_trans (a b c : string) :
  String.compare a b = Lt -> String.compare b c = Lt -> String.compare a c = Lt.
Proof.
  intros H1 H2. apply String_as_OT.cmp_lt in H1. apply String_as_OT.cmp_lt in H2.
  apply String_as_OT.cmp_lt. exact (String_as_OT.lt_trans _ _ _ H1 H2).
Qed.

Lemma insert_sorted_In (x z : string) (l : list string) :
  In z (Py.insert_sorted x l) <-> z = x \/ In z l.
Proof.
  induction l as [|y r IH]; simpl; [intuition|].
  destruct (String.compare x y) eqn:E; simpl.
  - apply String.compare_eq_iff in E. subst y. intuition.
  - intuition.
  - rewrite IH. intuition.
Qed.

Lemma insert_sorted_increasing (x : string) (l : list string) :
  increasing l -> increasing (Py.insert_sorted x l).
Proof.
  unfold increasing. induction 1 as [|y r Hr IH Hy]; simpl.
  - constructor; constructor.
  - destruct (String.compare x y) eqn:E.
    + constructor; assumption.
    + constructor; [constructor; assumption|].
      constructor; [exact E|].
      rewrite Forall_forall in Hy |- *. intros z Hz.
      exact (compare_lt_trans x y z E (Hy z Hz)).
    + constructor; [exact IH|].
      rewrite Forall_forall in Hy |- *. intros z Hz.
      apply insert_sorted_In in Hz. destruct Hz as [->|Hz]; [|exact (Hy z Hz)].
      rewrite String.compare_antisym, E. reflexivity.
Qed.

Lemma sorted_set_In (z : string) (l : list string) :
  In z (Py.sorted_set l) <-> In z l.
Proof.
  unfold Py.sorted_set. induction l as [|x l IH]; simpl; [tauto|].
  rewrite insert_sorted_In, IH. intuition.
Qed.

Lemma sorted_set_increasing (l : list string) : increasing (Py.sorted_set l).
Proof.
  unfold Py.sorted_set. induction l as [|x l IH]; simpl.
  - constructor.
  - apply insert_sorted_increasing; exact IH.
Qed.

Lemma increasing_NoDup (l : list string) : increasing l -> NoDup l.
Proof.
  unfold increasing. induction 1 as [|y r Hr IH Hy]; constructor; [|exact IH].
  intros Hin. rewrite Forall_forall in Hy. specialize (Hy y Hin).
  assert (E : String.compare y y = Eq) by (apply String_as_OT.cmp_eq; reflexivity).
  congruence.
Qed.

(** The list of workflow files is strictly increasing in the order of code
    points, so no file is listed (and linted) twice, however often the input
    names it. *)
Theorem workflow_files_increasing :
  forall (fs : FileSystem) (input : string),
    increasing (workflow_files fs input) /\ NoDup (workflow_files fs input).
Proof.
  intros fs input.
  assert (H : increasing (workflow_files fs input))
    by (unfold workflow_files; apply sorted_set_increasing).
  split; [exact H | apply increasing_NoDup; exact H].
Qed.

Lemma files_below_In (fs : FileSystem) (path p : string) :
  In p (files_below fs path)
  <-> exists (subdir : string) (dirs files : list string) (filename : string),
        In (subdir, dirs, files) (walk fs path)
        /\ In filename files
        /\ p = subdir ++ sep fs ++ filename
        /\ (Py.endswith ".yml" p = true \/ Py.endswith ".yaml" p = true).
Proof.
  unfold files_below. rewrite in_flat_map. split.
  - intros [[[subdir dirs] files] [Hentry Hp]]. simpl in Hp.
    apply filter_In in Hp. destruct Hp as [Hp Hext].
    apply in_map_iff in Hp. destruct Hp as [filename [<- Hfile]].
    exists subdir, dirs, files, filename.
    apply orb_true_iff in Hext. auto.
  - intros [subdir [dirs [files [filename [Hentry [Hfile [-> Hext]]]]]]].
    exists (subdir, dirs, files). split; [exact Hentry|]. simpl.
    apply filter_In. split.
    + apply in_map_iff. exists filename; auto.
    + apply orb_true_iff. exact Hext.
Qed.

(** What [workflow_files] returns: a path is listed exactly when, for some
    word of the input, the word is a file and is that path (whatever its
    extension), or the word is a directory (and not a file) and the path is
    a file below it whose name ends in [.yml] or [.yaml].  Words that are
    neither are dropped. *)
Theorem workflow_files_membership :
  forall (fs : FileSystem) (input p : string),
    In p (workflow_files fs input)
    <-> exists path : string, In path (Py.words input) /\ found_for fs path p.
Proof.
  intros fs input p. unfold workflow_files, found_for.
  rewrite sorted_set_In, in_flat_map.
  split; intros [path [Hword H]]; exists path; (split; [exact Hword|]).
  - destruct (isfile fs path) eqn:F.
    + destruct H as [<-|[]]. left; auto.
    + destruct (isdir fs path) eqn:D; [|destruct H].
      right. apply files_below_In in H. auto.
  - destruct H as [[F ->]|[F [D H]]]; rewrite F.
    + left; reflexivity.
    + rewrite D. apply files_below_In. exact H.
Qed.

Lemma workflow_files_membership_witness :
  In "notes.txt" (workflow_files fs_sample ".github  notes.txt missing").
Proof.
  apply (proj2 (workflow_files_membership fs_sample ".github  notes.txt missing"
                  "notes.txt")).
  exists "notes.txt". split.
  - vm_compute. right; left; reflexivity.
  - left. split; reflexivity.
Defined.

(** ** The exit code *)

Lemma lint_level_range (api : Api) (workflow : Workflow) (z : Z) :
  lint api workflow = Ok z -> (z = 0 \/ z = 1 \/ z = 2)%Z.
Proof.
  unfold lint. destruct (lint_findings api workflow initial) as [[[]|e] st];
    [|discriminate].
  intros H; injection H as <-. rewrite get_max_error_level_present.
  set (fs := findings st).
  assert (Hall : forall l, (max_level_present l = 0 \/ max_level_present l = 1
                            \/ max_level_present l = 2)%Z).
  { induction l as [|f l IH]; [left; reflexivity|].
    unfold max_level_present in *. simpl.
    destruct (level f); simpl; lia. }
  apply Hall.
Qed.

Lemma map_result_Ok {A B : Type} (f : A -> result B) (l : list A) (ys : list B) :
  map_result f l = Ok ys ->
  List.length ys = List.length l
  /\ forall y, In y ys <-> exists x, In x l /\ f x = Ok y.
Proof.
  revert ys. induction l as [|x l IH]; simpl; intros ys H.
  - injection H as <-. split; [reflexivity|]. intros y; split; [intros []|].
    intros [x [[] _]].
  - destruct (f x) as [y0|e] eqn:E; [|discriminate].
    destruct (map_result f l) as [ys0|e]; [|discriminate].
    injection H as <-. destruct (IH ys0 eq_refl) as [Hlen Hin].
    split; [simpl; lia|]. intros y; simpl. rewrite Hin. split.
    + intros [<-|[x' [Hx' Hy]]]; [exists x; auto | exists x'; auto].
    + intros [x' [[<-|Hx'] Hy]]; [left; congruence | right; exists x'; auto].
Qed.

Lemma map_result_Raise {A B : Type} (f : A -> result B) (l : list A) (e : exn) :
  map_result f l = Raise e -> exists x, In x l /\ f x = Raise e.
Proof.
  induction l as [|x l IH]; simpl; [discriminate|].
  destruct (f x) as [y0|e0] eqn:E.
  - destruct (map_result f l) as [ys0|e1]; [discriminate|].
    intros H; injection H as <-. destruct (IH eq_refl) as [x' [Hx' Hy]].
    exists x'; auto.
  - intros H; injection H as <-. exists x; auto.
Qed.

Lemma map_result_total {A B : Type} (f : A -> result B) (l : list A) :
  (forall x, In x l -> exists y, f x = Ok y) -> exists ys, map_result f l = Ok ys.
Proof.
  induction l as [|x l IH]; simpl; intros H; [exists []; reflexivity|].
  destruct (H x (or_introl eq_refl)) as [y ->].
  destruct IH as [ys ->]; [intros x' Hx'; apply H; auto|].
  exists (y :: ys); reflexivity.
Qed.

Lemma fold_left_max_spec (l : list Z) (x : Z) :
  (forall z, In z (x :: l) -> z <= fold_left Z.max l x)%Z
  /\ In (fold_left Z.max l x) (x :: l).
Proof.
  revert x. induction l as [|y l IH]; intros x; simpl.
  - split; [intros z [<-|[]]; lia | left; reflexivity].
  - destruct (IH (Z.max x y)) as [Hle Hin]. split.
    + intros z [<-|[<-|Hz]].
      * specialize (Hle (Z.max x y) (or_introl eq_refl)). lia.
      * specialize (Hle (Z.max x y) (or_introl eq_refl)). lia.
      * apply Hle. right; exact Hz.
    + destruct Hin as [Hin|Hin]; [|auto].
      rewrite <- Hin. destruct (Z.max_spec x y) as [[_ ->]|[_ ->]]; auto.
Qed.

(** When every located file is linted to its end, the exit code is 2 exactly
    when some file has an error, 1 exactly when the strict flag is set, no
    file has an error and some file has a warning, and 0 otherwise: without
    the strict flag warnings never fail the run. *)
Theorem main_exit_code :
  forall (fs : FileSystem) (api : Api) (load : string -> Workflow)
         (strict : bool) (input : string),
    workflow_files fs input <> [] ->
    (forall file, In file (workflow_files fs input) ->
                  exists z, lint api (load file) = Ok z) ->
    let has (z : Z) :=
      exists file, In file (workflow_files fs input) /\ lint api (load file) = Ok z in
    exists code : Z,
      main fs api load strict input = Ok code
      /\ (code = 0 \/ code = 1 \/ code = 2)%Z
      /\ (code = 2%Z <-> has 2%Z)
      /\ (code = 1%Z <-> strict = true /\ ~ has 2%Z /\ has 1%Z).
Proof.
  intros fs api load strict input. unfold main.
  remember (workflow_files fs input) as files eqn:Efiles.
  intros Hne Hall.
  pose (has := fun z : Z =>
                 exists file, In file files /\ lint api (load file) = Ok z).
  assert (Hlen : (0 <? List.length files)%nat = true)
    by (destruct files; [congruence | reflexivity]).
  rewrite Hlen.
  destruct (map_result_total (fun filename => lint api (load filename)) files Hall)
    as [levels Hlevels].
  rewrite Hlevels.
  destruct (map_result_Ok _ _ _ Hlevels) as [Hsize Hin].
  assert (Hrange : forall z, In z levels -> (z = 0 \/ z = 1 \/ z = 2)%Z).
  { intros z Hz. apply Hin in Hz. destruct Hz as [file [_ Hz]].
    exact (lint_level_range api (load file) z Hz). }
  assert (Hhas : forall z, In z levels <-> has z) by (intros z; unfold has; apply Hin).
  destruct levels as [|x levels];
    [destruct files; [congruence | discriminate Hsize]|].
  unfold max_of.
  destruct (fold_left_max_spec levels x) as [Hle Hmax].
  set (m := fold_left Z.max levels x) in *.
  pose proof (Hrange m Hmax) as Hm.
  assert (H2 : m = 2%Z <-> has 2%Z).
  { rewrite <- Hhas. split; [intros <-; exact Hmax|].
    intros H. specialize (Hle 2%Z H). lia. }
  assert (H1 : m = 1%Z <-> ~ has 2%Z /\ has 1%Z).
  { rewrite <- !Hhas. split.
    - intros E. split; [|rewrite <- E; exact Hmax].
      intros H. specialize (Hle 2%Z H). lia.
    - intros [Hno H]. specialize (Hle 1%Z H).
      destruct Hm as [E|[E|E]]; try lia. exfalso; apply Hno. rewrite <- E. exact Hmax. }
  simpl PROBLEM_LEVELS. unfold has in H1, H2. clear Hhas. clearbody m.
  destruct (Z.eqb_spec m 2) as [E2|N2].
  - exists 2%Z. split; [reflexivity|]. split; [lia|]. split; [tauto|].
    split; [lia|]. intros [_ [Hno _]]. exfalso; apply Hno, H2, E2.
  - destruct (Z.eqb_spec m 1) as [E1|N1].
    + destruct strict.
      * exists 1%Z. split; [reflexivity|]. split; [lia|]. split; [|tauto].
        split; [lia|]. intros H. apply H2 in H. lia.
      * exists 0%Z. split; [reflexivity|]. split; [lia|]. split.
        -- split; [lia|]. intros H. apply H2 in H. lia.
        -- split; [lia|]. intros [H _]. discriminate H.
    + exists 0%Z. split; [reflexivity|]. split; [lia|]. split.
      * split; [lia|]. intros H. apply H2 in H. lia.
      * split; [lia|]. intros [_ H]. apply H1 in H. lia.
Qed.

Lemma main_exit_code_witness :
  exists code : Z,
    main fs_sample api_not_found (fun _ => workflow_two_jobs) false ".github" = Ok code
    /\ (code = 0 \/ code = 1 \/ code = 2)%Z
    /\ (code = 2%Z
        <-> exists file, In file (workflow_files fs_sample ".github")
                         /\ lint api_not_found ((fun _ => workflow_two_jobs) file) = Ok 2%Z)
    /\ (code = 1%Z
        <-> false = true
            /\ ~ (exists file, In file (workflow_files fs_sample ".github")
                               /\ lint api_not_found ((fun _ => workflow_two_jobs) file)
                                  = Ok 2%Z)
            /\ exists file, In file (workflow_files fs_sample ".github")
                            /\ lint api_not_found ((fun _ => workflow_two_jobs) file)
                               = Ok 1%Z).
Proof.
  apply (main_exit_code fs_sample api_not_found (fun _ => workflow_two_jobs) false
           ".github").
  - vm_compute. discriminate.
  - intros file _. exists 1%Z. reflexivity.
Defined.

(** [main] returns -1 exactly when no workflow file is located, and it
    raises only an exception that [lint] raises on one of the located
    files. *)
Theorem main_without_files :
  forall (fs : FileSystem) (api : Api) (load : string -> Workflow)
         (strict : bool) (input : string),
    (main fs api load strict input = Ok (-1)%Z <-> workflow_files fs input = [])
    /\ forall e, main fs api load strict input = Raise e ->
                 exists file, In file (workflow_files fs input)
                              /\ lint api (load file) = Raise e.
Proof.
  intros fs api load strict input. unfold main.
  set (files := workflow_files fs input).
  destruct files as [|file0 rest] eqn:Efiles.
  - simpl. split; [tauto|]. discriminate.
  - rewrite <- Efiles.
    assert (Hlen : (0 <? List.length files)%nat = true) by (rewrite Efiles; reflexivity).
    rewrite Hlen.
    destruct (map_result (fun filename => lint api (load filename)) files)
      as [levels|e0] eqn:Hlevels.
    + destruct (map_result_Ok _ _ _ Hlevels) as [Hsize _].
      destruct levels as [|x levels]; [rewrite Efiles in Hsize; discriminate|].
      unfold max_of. simpl PROBLEM_LEVELS. split.
      * split; [|rewrite Efiles; discriminate].
        destruct (_ =? 2)%Z; [discriminate|].
        destruct (_ =? 1)%Z; [destruct strict|]; discriminate.
      * intros e. destruct (_ =? 2)%Z; [discriminate|].
        destruct (_ =? 1)%Z; discriminate.
    + split.
      * split; [discriminate | rewrite Efiles; discriminate].
      * intros e H. injection H as <-.
        exact (map_result_Raise _ _ _ Hlevels).
Qed.

Lemma main_without_files_witness :
  exists file, In file (workflow_files fs_sample ".github")
               /\ lint api_not_found ((fun _ => mkWorkflow (Some "") None) file)
                  = Raise IndexError.
Proof.
  apply (proj2 (main_without_files fs_sample api_not_found
                  (fun _ => mkWorkflow (Some "") None) true ".github") IndexError).
  reflexivity.
Defined.
